(** * ChatWithDoc: page attribution and chat submission of the PDF chat client

    A shallow embedding of the client script of the repository (the
    functions [findPageForText], [formatAIResponse], [sendMessage] and
    [askSuggestedQuestion]) together with the properties of the answer
    grounding heuristic and of the message submission guard.  The second
    part adds the extraction of the page texts, the overview message, the
    document viewer, the upload widgets and the session history of
    [history.js], with the properties they keep.

    Strings.  A JavaScript string is a sequence of UTF-16 code units.  The
    model takes [list ascii], read as the code units 0..255 (Latin-1); on that
    range [toLowerCase], [trim], [\s], [\w] and [\d] are modelled exactly, and
    text with code units above 255 is outside the model. *)

From Stdlib Require Import Ascii String NArith List Bool Arith Lia.
From stdpp Require Import base option list gmap.
Import ListNotations.

Set Default Proof Using "Type".

(** ** Strings of code units *)

Module JsString.

Abbreviation jsstring := (list ascii).

(** A literal of the source, as a sequence of code units. *)
Definition str (s : string) : jsstring := list_ascii_of_string s.

Definition code (c : ascii) : N := N_of_ascii c.

Definition between (lo hi : N) (c : ascii) : bool :=
  ((lo <=? code c) && (code c <=? hi))%N.

(** [\s] of a regular expression, and the white space and line terminators
    removed by [String.prototype.trim]: TAB, LF, VT, FF, CR, SP and NBSP
    (the other members have code units above 255). *)
Definition isSpace (c : ascii) : bool :=
  between 9 13 c || (code c =? 32)%N || (code c =? 160)%N.

(** [\d] *)
Definition isDigit (c : ascii) : bool := between 48 57 c.

(** [\w]: [A-Za-z0-9_] *)
Definition isWord (c : ascii) : bool :=
  between 65 90 c || between 97 122 c || isDigit c || (code c =? 95)%N.

(** One code unit of [String.prototype.toLowerCase]: A-Z, and the Latin-1
    capitals U+00C0..U+00DE except the multiplication sign U+00D7, move up
    by 32; every other code unit below 256 is its own lower case. *)
Definition toLowerChar (c : ascii) : ascii :=
  if between 65 90 c || (between 192 222 c && negb (code c =? 215)%N)
  then ascii_of_N (code c + 32)
  else c.

Definition toLowerCase (s : jsstring) : jsstring := map toLowerChar s.

Fixpoint trimStart (s : jsstring) : jsstring :=
  match s with
  | c :: s' => if isSpace c then trimStart s' else s
  | [] => []
  end.

Definition trimEnd (s : jsstring) : jsstring := rev (trimStart (rev s)).

Definition trim (s : jsstring) : jsstring := trimEnd (trimStart s).

Definition ascii_eqb (a b : ascii) : bool := Ascii.eqb a b.

(** [s.startsWith(p)] *)
Fixpoint startsWith (s p : jsstring) : bool :=
  match p, s with
  | [], _ => true
  | _ :: _, [] => false
  | a :: p', b :: s' => ascii_eqb a b && startsWith s' p'
  end.

(** [s.includes(t)]: [t] occurs in [s] at some position. *)
Fixpoint includes (s t : jsstring) : bool :=
  startsWith s t ||
  match s with
  | [] => false
  | _ :: s' => includes s' t
  end.

(** [t] occurs in [s]: some code units, then [t], then the rest. *)
Definition occursIn (t s : jsstring) : Prop :=
  exists before after, s = before ++ t ++ after.

(** No code unit of [s] is white space. *)
Definition noSpace (s : jsstring) : Prop := Forall (fun c => isSpace c = false) s.

(** [s.replace(/[^\w\s]/g, ' ')] *)
Definition replaceNonWord (s : jsstring) : jsstring :=
  map (fun c => if isWord c || isSpace c then c else " "%char) s.

(** [s.split(/\s+/)], with [cur] the piece being read.  A maximal run of
    white space ends the current piece, also when the piece is empty (a
    leading run gives a leading empty piece, a trailing run a trailing
    one). *)
Fixpoint splitSpaces (cur s : jsstring) : list jsstring :=
  match s with
  | [] => [cur]
  | c :: s' =>
      if isSpace c then
        match s' with
        | c' :: _ => if isSpace c' then splitSpaces cur s'
                     else cur :: splitSpaces [] s'
        | [] => cur :: splitSpaces [] s'
        end
      else splitSpaces (cur ++ [c]) s'
  end.

Definition split_ws (s : jsstring) : list jsstring := splitSpaces [] s.

End JsString.

Export JsString.

(** ** The grounding routine *)

(** The globals [pageTextContent] (an object keyed by page number, or
    [null]) and [totalPages] are read by the routine; here they are its
    second and third argument. *)

Record BestMatch := { page : nat; score : nat }.

(** [const cleanSearch = searchText.toLowerCase().trim()] *)
Definition cleanSearchOf (searchText : jsstring) : jsstring :=
  trim (toLowerCase searchText).

(** [cleanSearch.replace(/[^\w\s]/g, ' ').split(/\s+/).filter(word => word.length > 3)] *)
Definition meaningfulWordsOf (cleanSearch : jsstring) : list jsstring :=
  List.filter (fun word => 3 <? length word)
    (split_ws (replaceNonWord cleanSearch)).

(** The score of one page: the body of the [for] loop between
    [let score = 0] and the comparison with [bestMatch.score]. *)
Definition pageScore (cleanSearch : jsstring) (meaningfulWords : list jsstring)
    (pageTextLower : jsstring) : nat :=
  let score := 0 in
  let score := if includes pageTextLower cleanSearch then score + 100 else score in
  fold_left
    (fun score word => if includes pageTextLower word then score + 10 else score)
    meaningfulWords score.

(** One iteration of the [for] loop. *)
Definition visitPage (pageTextContent : gmap nat jsstring)
    (cleanSearch : jsstring) (meaningfulWords : list jsstring)
    (bestMatch : BestMatch) (pageNum : nat) : BestMatch :=
  match pageTextContent !! pageNum with
  | None | Some [] => bestMatch
  | Some pageText =>
      let pageTextLower := toLowerCase pageText in
      let score' := pageScore cleanSearch meaningfulWords pageTextLower in
      if bestMatch.(score) <? score'
      then {| page := pageNum; score := score' |}
      else bestMatch
  end.

Definition findPageForText (searchText : option jsstring)
    (pageTextContent : option (gmap nat jsstring)) (totalPages : nat) : nat :=
  match searchText, pageTextContent with
  | None, _ | Some [], _ | _, None => 1
  | Some searchText, Some pageTextContent =>
      let cleanSearch := cleanSearchOf searchText in
      let meaningfulWords := meaningfulWordsOf cleanSearch in
      if length meaningfulWords =? 0 then 1
      else
        let bestMatch :=
          fold_left (visitPage pageTextContent cleanSearch meaningfulWords)
            (seq 1 totalPages) {| page := 1; score := 0 |} in
        if 0 <? bestMatch.(score) then bestMatch.(page) else 1
  end.

(** The score the loop gives to a page whose text is [pageText], for the
    segment [searchText]. *)
Definition scoreOf (searchText pageText : jsstring) : nat :=
  pageScore (cleanSearchOf searchText)
    (meaningfulWordsOf (cleanSearchOf searchText)) (toLowerCase pageText).

(** The score of page [pageNum] of a page map: a page without text (missing,
    or the empty string) is skipped by the loop and so scores nothing. *)
Definition scoreOfPage (searchText : jsstring) (pages : gmap nat jsstring)
    (pageNum : nat) : nat :=
  match pages !! pageNum with
  | None | Some [] => 0
  | Some pageText => scoreOf searchText pageText
  end.

(** The update of [bestMatch] at the end of an iteration, for a page whose
    score is [sc pageNum]. *)
Definition keepBest (sc : nat -> nat) (bestMatch : BestMatch) (pageNum : nat)
    : BestMatch :=
  if bestMatch.(score) <? sc pageNum
  then {| page := pageNum; score := sc pageNum |}
  else bestMatch.

(** ** Rendering of an answer *)

(** [answer.replace(/\*/g, '')] *)
Definition removeStars (s : jsstring) : jsstring :=
  List.filter (fun c => negb (ascii_eqb c "*"%char)) s.

(** The class [[.!?]] of the look-behind. *)
Definition isStop (c : ascii) : bool :=
  ascii_eqb c "."%char || ascii_eqb c "!"%char || ascii_eqb c "?"%char.

(** [s.split(/(?<=[.!?])\s+/)].  [skipping] holds inside a run of white
    space that matched the pattern, [prevStop] when the code unit just read
    is one of [.!?], and [cur] is the piece being read. *)
Fixpoint splitSentences (skipping prevStop : bool) (cur s : jsstring)
    : list jsstring :=
  match s with
  | [] => [cur]
  | c :: s' =>
      if isSpace c then
        if skipping then splitSentences true false cur s'
        else if prevStop then cur :: splitSentences true false [] s'
        else splitSentences false false (cur ++ [c]) s'
      else splitSentences false (isStop c) (cur ++ [c]) s'
  end.

(** The class [[â€˘\-]] as the script has it: the code units U+00E2,
    U+20AC, U+02D8 and the hyphen, of which U+00E2 and the hyphen are below
    256. *)
Definition isBulletChar (c : ascii) : bool :=
  (code c =? 226)%N || (code c =? 45)%N.

(** [/^\d+\./] matches at the start of [s]. *)
Fixpoint digitsThenDot (seenDigit : bool) (s : jsstring) : bool :=
  match s with
  | [] => false
  | c :: s' =>
      if isDigit c then digitsThenDot true s'
      else seenDigit && ascii_eqb c "."%char
  end.

(** [sentence.match(/^[â€˘\-]|^\d+\./)] is not [null]. *)
Definition isListItem (sentence : jsstring) : bool :=
  match sentence with
  | c :: _ => isBulletChar c
  | [] => false
  end || digitsThenDot false sentence.

Fixpoint dropDigits (s : jsstring) : jsstring :=
  match s with
  | c :: s' => if isDigit c then dropDigits s' else s
  | [] => []
  end.

(** [sentence.replace(/^[â€˘\-]\s*|^\d+\.\s*/, '')] *)
Definition stripMarker (sentence : jsstring) : jsstring :=
  match sentence with
  | [] => []
  | c :: s' =>
      if isBulletChar c then trimStart s'
      else if digitsThenDot false sentence
           then trimStart (tail (dropDigits sentence))
           else sentence
  end.

Definition noInfoPhrase : jsstring := str "don't have information".

(** One piece of the produced markup: each constructor stands for one of the
    three template literals appended to [html].  Only the two with a
    [page-ref] span carry a page number. *)
Inductive Block :=
| ListItem (content : jsstring) (pageNum : nat)
| Paragraph (sentence : jsstring)
| Referenced (sentence : jsstring) (pageNum : nat).

(** The page a block is attributed to: the argument of its [goToPage]. *)
Definition pageRef (b : Block) : option nat :=
  match b with
  | ListItem _ pageNum | Referenced _ pageNum => Some pageNum
  | Paragraph _ => None
  end.

(** The body of [sentences.forEach]. *)
Definition formatSentence (pageTextContent : option (gmap nat jsstring))
    (totalPages : nat) (sentence : jsstring) : list Block :=
  let sentence := trim sentence in
  match sentence with
  | [] => []
  | _ :: _ =>
      if isListItem sentence then
        let content := stripMarker sentence in
        let pageNum := findPageForText (Some content) pageTextContent totalPages in
        [ListItem content pageNum]
      else if includes (toLowerCase sentence) noInfoPhrase then
        [Paragraph sentence]
      else
        let pageNum := findPageForText (Some sentence) pageTextContent totalPages in
        [Referenced sentence pageNum]
  end.

(** [answer.split(...).filter(s => s.trim().length > 0)] *)
Definition sentencesOf (answer : jsstring) : list jsstring :=
  List.filter (fun s => 0 <? length (trim s))
    (splitSentences false false [] answer).

Definition formatAIResponse (pageTextContent : option (gmap nat jsstring))
    (totalPages : nat) (answer : jsstring) : list Block :=
  let answer := trim (removeStars answer) in
  flat_map (formatSentence pageTextContent totalPages) (sentencesOf answer).

(** ** The script's global variables and the page *)

Record Globals := {
  documentProcessed : bool;
  totalPages : nat;
  pageTextContent : option (gmap nat jsstring);
  isProcessingMessage : bool
}.

(** The values the script gives its globals when it is loaded. *)
Definition initialGlobals : Globals :=
  {| documentProcessed := false; totalPages := 1;
     pageTextContent := Some ∅; isProcessingMessage := false |}.

(** *** The routine as the script runs it, reading the globals *)

Module Stateful.

(** A computation over the global variables. *)
Definition M (A : Type) : Type := Globals -> A * Globals.

Definition ret {A} (a : A) : M A := fun g => (a, g).

Definition bind {A B} (m : M A) (k : A -> M B) : M B :=
  fun g => let (a, g') := m g in k a g'.

Definition readGlobal {A} (var : Globals -> A) : M A := fun g => (var g, g).

Notation "x <- m ;; k" := (bind m (fun x => k))
  (at level 100, m at next level, right associativity).

(** [for (let pageNum = first; ...; pageNum++)] over the given page numbers,
    threading the local [bestMatch]. *)
Fixpoint forPages (pageNums : list nat) (body : BestMatch -> nat -> M BestMatch)
    (bestMatch : BestMatch) : M BestMatch :=
  match pageNums with
  | [] => ret bestMatch
  | pageNum :: rest =>
      bestMatch' <- body bestMatch pageNum ;;
      forPages rest body bestMatch'
  end.

Definition findPageForText (searchText : option jsstring) : M nat :=
  match searchText with
  | None | Some [] => ret 1
  | Some searchText =>
      pages <- readGlobal pageTextContent ;;
      match pages with
      | None => ret 1
      | Some _ =>
          let cleanSearch := cleanSearchOf searchText in
          let meaningfulWords := meaningfulWordsOf cleanSearch in
          if length meaningfulWords =? 0 then ret 1
          else
            last <- readGlobal totalPages ;;
            bestMatch <-
              forPages (seq 1 last)
                (fun bestMatch pageNum =>
                   pages <- readGlobal pageTextContent ;;
                   match pages with
                   | Some pages =>
                       ret (visitPage pages cleanSearch meaningfulWords
                              bestMatch pageNum)
                   | None => ret bestMatch
                   end)
                {| page := 1; score := 0 |} ;;
            ret (if 0 <? bestMatch.(score) then bestMatch.(page) else 1)
      end
  end.

End Stateful.

(** *** The chat widgets *)

Inductive Sender := User | Ai.

Inductive Content :=
| Text (s : jsstring)
| Answer (blocks : list Block).

(** The elements the chat functions look up by id; [None] is an element that
    is not in the document.  An input is its [value], the button its
    [disabled] flag, the container the messages appended to it (time stamps
    left out), the indicator its [active] class, the empty state whether it
    is hidden. *)
Record Dom := {
  messageInput : option jsstring;
  sendButton : option bool;
  messagesContainer : option (list (Sender * Content));
  typingIndicator : option bool;
  emptyState : option bool
}.

(** The body of a POST to [/chat]. *)
Record ChatRequest := { message : jsstring; pdf_only : bool }.

(** The page and the script between two turns of the event loop; [pending]
    holds the requests to [/chat] that were sent and have not settled. *)
Record World := {
  globals : Globals;
  dom : Dom;
  pending : list ChatRequest
}.

Definition setGlobals (g : Globals) (w : World) : World :=
  {| globals := g; dom := w.(dom); pending := w.(pending) |}.

Definition setDom (d : Dom) (w : World) : World :=
  {| globals := w.(globals); dom := d; pending := w.(pending) |}.

Definition setIsProcessingMessage (b : bool) (w : World) : World :=
  setGlobals
    {| documentProcessed := w.(globals).(documentProcessed);
       totalPages := w.(globals).(totalPages);
       pageTextContent := w.(globals).(pageTextContent);
       isProcessingMessage := b |} w.

(** What a text input keeps of a string assigned to its [value]: the line
    feeds and carriage returns are dropped. *)
Definition stripNewlines (v : jsstring) : jsstring :=
  List.filter (fun c => negb ((code c =? 10)%N || (code c =? 13)%N)) v.

(** [messageInput.value = v] *)
Definition setInputValue (v : jsstring) (w : World) : World :=
  setDom
    {| messageInput := (fun _ => stripNewlines v) <$> w.(dom).(messageInput);
       sendButton := w.(dom).(sendButton);
       messagesContainer := w.(dom).(messagesContainer);
       typingIndicator := w.(dom).(typingIndicator);
       emptyState := w.(dom).(emptyState) |} w.

Definition setSendDisabled (b : bool) (w : World) : World :=
  setDom
    {| messageInput := w.(dom).(messageInput);
       sendButton := (fun _ => b) <$> w.(dom).(sendButton);
       messagesContainer := w.(dom).(messagesContainer);
       typingIndicator := w.(dom).(typingIndicator);
       emptyState := w.(dom).(emptyState) |} w.

Definition setTyping (b : bool) (w : World) : World :=
  setDom
    {| messageInput := w.(dom).(messageInput);
       sendButton := w.(dom).(sendButton);
       messagesContainer := w.(dom).(messagesContainer);
       typingIndicator := (fun _ => b) <$> w.(dom).(typingIndicator);
       emptyState := w.(dom).(emptyState) |} w.

Definition showTypingIndicator : World -> World := setTyping true.
Definition hideTypingIndicator : World -> World := setTyping false.

Definition addMessage (sender : Sender) (content : Content) (w : World) : World :=
  match w.(dom).(messagesContainer) with
  | None => w
  | Some messages =>
      setDom
        {| messageInput := w.(dom).(messageInput);
           sendButton := w.(dom).(sendButton);
           messagesContainer := Some (messages ++ [(sender, content)]);
           typingIndicator := w.(dom).(typingIndicator);
           emptyState := (fun _ => true) <$> w.(dom).(emptyState) |} w
  end.

(** [fetch('/chat', ...)]: one more request on its way. *)
Definition fetchChat (r : ChatRequest) (w : World) : World :=
  {| globals := w.(globals); dom := w.(dom); pending := w.(pending) ++ [r] |}.

(** ** Sending a message *)

(** [sendMessage] up to its first [await]. *)
Definition sendMessage (w : World) : World :=
  match w.(dom).(messageInput), w.(dom).(sendButton) with
  | Some value, Some _ =>
      let message := trim value in
      if (length message =? 0) || negb w.(globals).(documentProcessed)
         || w.(globals).(isProcessingMessage)
      then w
      else
        let w := setIsProcessingMessage true w in
        let w := setSendDisabled true w in
        let w := addMessage User (Text message) w in
        let w := setInputValue [] w in
        let w := showTypingIndicator w in
        fetchChat {| message := message; pdf_only := true |} w
  | _, _ => w
  end.

(** The JSON object the server answers with. *)
Record ChatResult := {
  success : bool;
  answer : option jsstring;
  errorMessage : option jsstring
}.

(** How the request of [sendMessage] ends: [fetch] or [response.json()] is
    rejected, or the body parses to a result. *)
Inductive Outcome :=
| Rejected
| Resolved (result : ChatResult).

(** The [catch] block. *)
Definition onChatError (w : World) : World :=
  addMessage Ai
    (Text (str "Error: Unable to connect to server. Please try again."))
    (hideTypingIndicator w).

(** The [finally] block. *)
Definition onChatFinally (w : World) : World :=
  setSendDisabled false (setIsProcessingMessage false w).

(** [sendMessage] from the point where its request has settled: the rest of
    the [try] block, the [catch] block when something was thrown (a rejected
    request, or [formatAIResponse] applied to a missing [answer]), and the
    [finally] block.  Nothing runs between the two [await]s, so they are one
    step. *)
Definition resumeSendMessage (o : Outcome) (w : World) : World :=
  let w :=
    match o with
    | Rejected => onChatError w
    | Resolved result =>
        let w := hideTypingIndicator w in
        if result.(success) then
          match result.(answer) with
          | Some answer =>
              addMessage Ai
                (Answer (formatAIResponse w.(globals).(pageTextContent)
                           w.(globals).(totalPages) answer)) w
          | None => onChatError w
          end
        else
          addMessage Ai
            (Text (str "Error: " ++
                   match result.(errorMessage) with
                   | None | Some [] => str "Unable to process your request"
                   | Some m => m
                   end)) w
    end in
  onChatFinally w.

(** [window.askSuggestedQuestion] *)
Definition askSuggestedQuestion (question : jsstring) (w : World) : World :=
  if w.(globals).(isProcessingMessage) then w
  else
    match w.(dom).(messageInput) with
    | Some _ => sendMessage (setInputValue question w)
    | None => w
    end.

(** What can happen between two turns of the event loop. *)
Inductive Event :=
| ClickSend
| PressEnter
| AskSuggested (question : jsstring)
| EditInput (value : jsstring)
| DocumentReady (pages : gmap nat jsstring) (numPages : nat)
| Settle (o : Outcome).

(** The document has been processed: [extractFullPdfText] and [renderPDF]
    have stored the page texts and the page count, and [setupChatInterface]
    enables the button and sets [documentProcessed]. *)
Definition documentReady (pages : gmap nat jsstring) (numPages : nat)
    (w : World) : World :=
  setSendDisabled false
    (setGlobals
       {| documentProcessed := true; totalPages := numPages;
          pageTextContent := Some pages;
          isProcessingMessage := w.(globals).(isProcessingMessage) |} w).

(** One turn.  A request settles only when one is pending, the oldest
    first. *)
Definition step (w : World) (e : Event) : World :=
  match e with
  | ClickSend => sendMessage w
  | PressEnter => if w.(globals).(isProcessingMessage) then w else sendMessage w
  | AskSuggested question => askSuggestedQuestion question w
  | EditInput value => setInputValue value w
  | DocumentReady pages numPages => documentReady pages numPages w
  | Settle o =>
      match w.(pending) with
      | [] => w
      | _ :: rest =>
          resumeSendMessage o
            {| globals := w.(globals); dom := w.(dom); pending := rest |}
      end
  end.

Definition initialWorld (d : Dom) : World :=
  {| globals := initialGlobals; dom := d; pending := [] |}.

Definition run (d : Dom) (events : list Event) : World :=
  fold_left step events (initialWorld d).

(** The number of requests on their way is 1 while the flag is set and 0
    while it is not. *)
Definition inFlightMatchesFlag (w : World) : Prop :=
  length w.(pending) = if w.(globals).(isProcessingMessage) then 1 else 0.

(** ** The heuristic in the words of the specification *)

Module Spec.

Definition jsstring_eq_dec : forall a b : jsstring, {a = b} + {a <> b} :=
  List.list_eq_dec Ascii.ascii_dec.

(** "100 if the full normalized segment is a substring of the page text,
    plus 10 for each distinct content word found in the page text": the
    score with every content word counted once. *)
Definition scoreDistinct (searchText pageText : jsstring) : nat :=
  let cleanSearch := cleanSearchOf searchText in
  let pageTextLower := toLowerCase pageText in
  (if includes pageTextLower cleanSearch then 100 else 0) +
  10 * length (List.filter (includes pageTextLower)
                 (nodup jsstring_eq_dec (meaningfulWordsOf cleanSearch))).

Definition joinSpace (pieces : list jsstring) : jsstring :=
  match pieces with
  | [] => []
  | p :: rest => p ++ flat_map (fun q => " "%char :: q) rest
  end.

(** "case-fold, strip punctuation, collapse whitespace" *)
Definition normalize (s : jsstring) : jsstring :=
  let folded := toLowerCase s in
  let stripped := List.filter (fun c => isWord c || isSpace c) folded in
  joinSpace (List.filter (fun p => 0 <? length p) (split_ws stripped)).

(** The score with the substring test and the word tests made on the
    normalized forms of both strings. *)
Definition scoreNormalized (searchText pageText : jsstring) : nat :=
  let segment := normalize searchText in
  let pageNorm := normalize pageText in
  (if includes pageNorm segment then 100 else 0) +
  10 * length (List.filter (includes pageNorm)
                 (List.filter (fun word => 3 <? length word) (split_ws segment))).

End Spec.

(** ** Sample documents *)

Module Sample.

(** The two pages of the end-to-end scenario, and a third that repeats the
    second. *)
Definition cellPages : gmap nat jsstring :=
  {[ 1 := str "Photosynthesis occurs in chloroplasts.";
     2 := str "The mitochondria is the powerhouse of the cell.";
     3 := str "Again: the mitochondria is the powerhouse." ]}.

Definition cellSegment : jsstring := str "The mitochondria is the powerhouse.".

(** A segment without a content word, found on the last page only. *)
Definition catSegment : jsstring := str "a cat".

Definition catPages : gmap nat jsstring :=
  {[ 1 := str "dogs"; 2 := str "bird"; 3 := str "a cat sat" ]}.

(** Two values of the globals that differ outside the page map. *)
Definition readyGlobals : Globals :=
  {| documentProcessed := true; totalPages := 3;
     pageTextContent := Some cellPages; isProcessingMessage := false |}.

Definition busyGlobals : Globals :=
  {| documentProcessed := false; totalPages := 3;
     pageTextContent := Some cellPages; isProcessingMessage := true |}.

(** A page with all the chat widgets, and a question typed in. *)
Definition chatDom : Dom :=
  {| messageInput := Some (str "What is the powerhouse of the cell?");
     sendButton := Some false;
     messagesContainer := Some [];
     typingIndicator := Some false;
     emptyState := Some false |}.

(** The page after a document was processed and the question was sent. *)
Definition busyWorld : World :=
  run chatDom [DocumentReady cellPages 3; ClickSend].

(** An answer made of one list item that says the document has no answer. *)
Definition noInfoItem : jsstring := str "- I don't have information about that.".

(** The same statement as an ordinary sentence. *)
Definition noInfoSentence : jsstring := str "I don't have information about that.".

End Sample.

(** ** What a reader of the chat sees *)

(** The text a block shows. *)
Definition blockText (b : Block) : jsstring :=
  match b with
  | ListItem content _ => content
  | Paragraph sentence | Referenced sentence _ => sentence
  end.

(** A block without a page reference is the rendering of a sentence that is
    not a list item and contains the phrase. *)
Definition isPlainNoInfo (sentence : jsstring) : bool :=
  negb (isListItem (trim sentence))
  && includes (toLowerCase (trim sentence)) noInfoPhrase.

(** A request as [sendMessage] builds it: the trimmed, non-empty text of the
    input, restricted to the document. *)
Definition wellFormedRequest (r : ChatRequest) : Prop :=
  r.(pdf_only) = true /\ r.(message) <> [] /\ trim r.(message) = r.(message).

Definition isFrom (sender : Sender) (m : Sender * Content) : bool :=
  match sender, fst m with
  | User, User | Ai, Ai => true
  | _, _ => false
  end.

(** The number of messages of one sender. *)
Definition countFrom (sender : Sender) (messages : list (Sender * Content)) : nat :=
  length (List.filter (isFrom sender) messages).

(** The routine from the cleaned segment on: what [findPageForText] does
    after its first line. *)
Definition bestPage (cleanSearch : jsstring) (pages : gmap nat jsstring)
    (total : nat) : nat :=
  let meaningfulWords := meaningfulWordsOf cleanSearch in
  if length meaningfulWords =? 0 then 1
  else
    let bestMatch :=
      fold_left (visitPage pages cleanSearch meaningfulWords)
        (seq 1 total) {| page := 1; score := 0 |} in
    if 0 <? bestMatch.(score) then bestMatch.(page) else 1.

(** The messages added since the page held [before], the requests on their
    way and the overviews shown so far balance. *)
Definition balanced (before : list (Sender * Content)) (shown : nat) (w : World)
    : Prop :=
  exists added,
    messagesContainer (dom w) = Some (before ++ added) /\
    countFrom User added + shown = countFrom Ai added + length (pending w).

(** ** The overview shown when a document is ready *)

Module Overview.

(** The JSON object [/document-summary] answers with. *)
Record Result := {
  success : bool;
  summary : option jsstring;
  questions : option (list jsstring)
}.

Inductive Outcome :=
| Rejected
| Resolved (result : Result).

Definition newline : jsstring := [ascii_of_N 10].

Definition indent (n : nat) : jsstring := repeat " "%char n.

Definition doubleQuote : jsstring := [ascii_of_N 34].

(** [question.replace(/'/g, "\\'")]: a backslash before every quote. *)
Definition escapeQuotes (question : jsstring) : jsstring :=
  flat_map (fun c => if ascii_eqb c "'"%char then ["\"%char; "'"%char] else [c])
    question.

(** The greeting for the hour of the day, [new Date().getHours()]. *)
Definition greeting (hour : nat) : jsstring :=
  if hour <? 12 then str "Good Morning"
  else if hour <? 18 then str "Good Afternoon"
  else str "Good Evening".

Definition suggestedQuestion (question : jsstring) : jsstring :=
  str "<div class=" ++ doubleQuote ++ str "suggested-question" ++ doubleQuote
  ++ str " onclick=" ++ doubleQuote ++ str "askSuggestedQuestion('"
  ++ escapeQuotes question ++ str "')" ++ doubleQuote ++ str ">"
  ++ question ++ str "</div>".

Definition formatOverviewMessage (hour : nat) (summary : jsstring)
    (questions : list jsstring) : jsstring :=
  let cleanSummary := removeStars summary in
  let html := str "<strong>" ++ greeting hour ++ str "!</strong><br><br>"
              ++ cleanSummary in
  if 0 <? length questions then
    fold_left (fun html question => html ++ suggestedQuestion question)
      questions
      (html ++ str "<br><br><strong>You might want to ask:</strong><br><br>")
  else html.

(** The welcome of the [else] branch and the one of the [catch] block. *)
Definition welcomeReady : jsstring :=
  newline ++ indent 16 ++ str "<strong>Document Ready!</strong><br><br>"
  ++ newline ++ indent 16
  ++ str "Your PDF has been loaded successfully. I'm ready to answer any questions about the content."
  ++ newline ++ indent 12.

Definition welcomeFallback : jsstring :=
  newline ++ indent 12 ++ str "<strong>Document Ready!</strong><br><br>"
  ++ newline ++ indent 12
  ++ str "Your PDF has been loaded successfully. Feel free to ask me any questions about it!"
  ++ newline ++ indent 8.

(** [generateInitialOverview] up to its first [await]. *)
Definition generateInitialOverview (w : World) : World := showTypingIndicator w.

(** The [catch] block. *)
Definition onOverviewError (w : World) : World :=
  addMessage Ai (Text welcomeFallback) (hideTypingIndicator w).

(** [generateInitialOverview] from the point where its request has settled;
    [formatOverviewMessage] throws on a missing [summary]. *)
Definition resumeGenerateInitialOverview (hour : nat) (o : Outcome) (w : World)
    : World :=
  match o with
  | Rejected => onOverviewError w
  | Resolved result =>
      let w := hideTypingIndicator w in
      if result.(success) then
        match result.(summary) with
        | Some summary =>
            addMessage Ai
              (Text (formatOverviewMessage hour summary
                       (match result.(questions) with
                        | Some questions => questions
                        | None => []
                        end))) w
        | None => onOverviewError w
        end
      else addMessage Ai (Text welcomeReady) w
  end.

End Overview.

(** The chat events together with the overview request of
    [setupChatInterface]. *)
Inductive PageEvent :=
| ChatEvent (e : Event)
| OverviewRequested
| OverviewSettled (hour : nat) (o : Overview.Outcome).

Definition pageStep (w : World) (e : PageEvent) : World :=
  match e with
  | ChatEvent e => step w e
  | OverviewRequested => Overview.generateInitialOverview w
  | OverviewSettled hour o => Overview.resumeGenerateInitialOverview hour o w
  end.

Definition pageRun (d : Dom) (events : list PageEvent) : World :=
  fold_left pageStep events (initialWorld d).

Definition isOverviewSettled (e : PageEvent) : bool :=
  match e with
  | OverviewSettled _ _ => true
  | _ => false
  end.

(** ** Extraction of the page texts *)

(** [items.join(sep)] *)
Definition joinWith (sep : jsstring) (items : list jsstring) : jsstring :=
  match items with
  | [] => []
  | first :: rest => first ++ flat_map (fun item => sep ++ item) rest
  end.

(** [s.replace(/\s+/g, ' ')]: one space for every maximal run of white
    space, written when the last code unit of the run is read. *)
Fixpoint collapseSpaces (s : jsstring) : jsstring :=
  match s with
  | [] => []
  | c :: s' =>
      if isSpace c then
        match s' with
        | c' :: _ => if isSpace c' then collapseSpaces s'
                     else " "%char :: collapseSpaces s'
        | [] => [" "%char]
        end
      else c :: collapseSpaces s'
  end.

(** The text of a page, from the strings of its text items:
    [items.map(item => item.str).join(' ').replace(/\s+/g, ' ').trim()]. *)
Definition pageTextOf (items : list jsstring) : jsstring :=
  trim (collapseSpaces (joinWith (str " ") items)).

(** The loop of [extractFullPdfText] from page [pageNum] on.  A page is the
    strings of its text items, or [None] when [getPage] or [getTextContent]
    is rejected; the rejection ends the loop, in the [catch] block. *)
Fixpoint extractPagesFrom (pageNum : nat) (pdfPages : list (option (list jsstring)))
    (pageTextContent : gmap nat jsstring) : gmap nat jsstring :=
  match pdfPages with
  | [] => pageTextContent
  | None :: _ => pageTextContent
  | Some items :: rest =>
      extractPagesFrom (S pageNum) rest
        (<[pageNum := pageTextOf items]> pageTextContent)
  end.

(** [extractFullPdfText] on the object [pageTextContent]; [None] is a file
    that [getDocument] rejects. *)
Definition extractFullPdfText (pdf : option (list (option (list jsstring))))
    (pageTextContent : gmap nat jsstring) : gmap nat jsstring :=
  match pdf with
  | None => pageTextContent
  | Some pdfPages => extractPagesFrom 1 pdfPages pageTextContent
  end.

(** The pages read before the first rejection. *)
Fixpoint readablePages (pdfPages : list (option (list jsstring)))
    : list (list jsstring) :=
  match pdfPages with
  | Some items :: rest => items :: readablePages rest
  | _ => []
  end.

(** All white space of [s] is single plain spaces: no tab, line break or
    no-break space, and no two spaces in a row. *)
Fixpoint singleSpaced (s : jsstring) : bool :=
  match s with
  | [] => true
  | c :: rest =>
      (if isSpace c
       then ascii_eqb c " "%char &&
            match rest with
            | c' :: _ => negb (isSpace c')
            | [] => true
            end
       else true)
      && singleSpaced rest
  end.

(** ** The document viewer *)

Module Viewer.

(** What [#page-info] shows: the text of the page as loaded, or
    [Page c of t]. *)
Inductive PageInfo :=
| Untouched
| PageOf (current total : nat).

(** The globals of the viewer and the elements its functions look up.
    [pdfDocument] tells whether the variable holds a document; [pdfContent]
    holds the numbers of the pages whose canvas was appended; the two buttons
    are their [disabled] flag; [rendering] holds the pages whose [renderPage]
    has passed its guards and has not finished. *)
Record State := {
  pdfDocument : bool;
  currentPage : nat;
  totalPages : nat;
  pdfContent : option (list nat);
  pageInfo : option PageInfo;
  prevPage : option bool;
  nextPage : option bool;
  rendering : list nat
}.

Definition updatePageControls (v : State) : State :=
  {| pdfDocument := v.(pdfDocument);
     currentPage := v.(currentPage);
     totalPages := v.(totalPages);
     pdfContent := v.(pdfContent);
     pageInfo := (fun _ => PageOf v.(currentPage) v.(totalPages)) <$> v.(pageInfo);
     prevPage := (fun _ => v.(currentPage) <=? 1) <$> v.(prevPage);
     nextPage := (fun _ => v.(totalPages) <=? v.(currentPage)) <$> v.(nextPage);
     rendering := v.(rendering) |}.

(** [renderPage] up to its first [await]. *)
Definition renderPage (pageNum : nat) (v : State) : State :=
  if negb v.(pdfDocument) || (pageNum <? 1) || (v.(totalPages) <? pageNum)
  then v
  else
    match v.(pdfContent) with
    | None => v
    | Some _ =>
        {| pdfDocument := v.(pdfDocument);
           currentPage := v.(currentPage);
           totalPages := v.(totalPages);
           pdfContent := Some [];
           pageInfo := v.(pageInfo);
           prevPage := v.(prevPage);
           nextPage := v.(nextPage);
           rendering := v.(rendering) ++ [pageNum] |}
    end.

(** Without its [i]-th element. *)
Definition without {A} (i : nat) (l : list A) : list A :=
  firstn i l ++ skipn (S i) l.

(** The [i]-th unfinished [renderPage] finishes: the page was drawn, or
    [getPage] or [render] was rejected and the [catch] block only logs. *)
Definition finishRenderPage (i : nat) (drawn : bool) (v : State) : State :=
  match v.(rendering) !! i with
  | None => v
  | Some pageNum =>
      if drawn then
        updatePageControls
          {| pdfDocument := v.(pdfDocument);
             currentPage := pageNum;
             totalPages := v.(totalPages);
             pdfContent := (fun canvases => canvases ++ [pageNum]) <$> v.(pdfContent);
             pageInfo := v.(pageInfo);
             prevPage := v.(prevPage);
             nextPage := v.(nextPage);
             rendering := without i v.(rendering) |}
      else
        {| pdfDocument := v.(pdfDocument);
           currentPage := v.(currentPage);
           totalPages := v.(totalPages);
           pdfContent := v.(pdfContent);
           pageInfo := v.(pageInfo);
           prevPage := v.(prevPage);
           nextPage := v.(nextPage);
           rendering := without i v.(rendering) |}
  end.

Definition goToPrevPage (v : State) : State :=
  if 1 <? v.(currentPage) then renderPage (v.(currentPage) - 1) v else v.

Definition goToNextPage (v : State) : State :=
  if v.(currentPage) <? v.(totalPages) then renderPage (v.(currentPage) + 1) v
  else v.

(** [goToPage], called with a page number as the page references do. *)
Definition goToPage (pageNum : nat) (v : State) : State :=
  if (1 <=? pageNum) && (pageNum <=? v.(totalPages))
     && negb (pageNum =? v.(currentPage))
  then renderPage pageNum v
  else v.

(** [renderPDF] up to the [await] of its [renderPage], for a file that
    [getDocument] opens with [numPages] pages. *)
Definition renderPDF (numPages : nat) (v : State) : State :=
  let v :=
    {| pdfDocument := true;
       currentPage := 1;
       totalPages := numPages;
       pdfContent := v.(pdfContent);
       pageInfo := v.(pageInfo);
       prevPage := v.(prevPage);
       nextPage := v.(nextPage);
       rendering := v.(rendering) |} in
  renderPage v.(currentPage) (updatePageControls v).

(** What happens in the viewer once a document is shown. *)
Inductive Event :=
| PrevClicked
| NextClicked
| ReferenceClicked (pageNum : nat)
| RenderFinished (i : nat) (drawn : bool).

Definition step (v : State) (e : Event) : State :=
  match e with
  | PrevClicked => goToPrevPage v
  | NextClicked => goToNextPage v
  | ReferenceClicked pageNum => goToPage pageNum v
  | RenderFinished i drawn => finishRenderPage i drawn v
  end.

(** The viewer as the script loads it ([pdfDocument = null],
    [currentPage = 1], [totalPages = 1]) with the given elements. *)
Definition initial (content : option (list nat)) (info : option PageInfo)
    (prev next : option bool) : State :=
  {| pdfDocument := false; currentPage := 1; totalPages := 1;
     pdfContent := content; pageInfo := info;
     prevPage := prev; nextPage := next; rendering := [] |}.

(** A document of [numPages] pages is shown in a viewer that renders
    nothing yet, and the events follow. *)
Definition browse (numPages : nat) (v : State) (events : list Event) : State :=
  fold_left step events (renderPDF numPages v).

(** The controls show the position: they are as [updatePageControls] leaves
    them for the current page and the page count. *)
Definition controlsInStep (v : State) : Prop :=
  (forall info, v.(pageInfo) = Some info ->
     info = PageOf v.(currentPage) v.(totalPages)) /\
  (forall disabled, v.(prevPage) = Some disabled ->
     disabled = (v.(currentPage) <=? 1)) /\
  (forall disabled, v.(nextPage) = Some disabled ->
     disabled = (v.(totalPages) <=? v.(currentPage))).

(** The position and every page being rendered are pages of the document. *)
Definition inDocument (numPages : nat) (v : State) : Prop :=
  v.(pdfDocument) = true /\ v.(totalPages) = numPages /\
  1 <= v.(currentPage) <= numPages /\
  Forall (fun pageNum => 1 <= pageNum <= numPages) v.(rendering).

End Viewer.

(** ** The session history *)

Module History.

(** [a === b] on strings. *)
Fixpoint strEq (a b : jsstring) : bool :=
  match a, b with
  | [], [] => true
  | x :: a', y :: b' => ascii_eqb x y && strEq a' b'
  | _, _ => false
  end.

(** [a || b] on values that are a string or missing: [a] when it is a
    non-empty string, else [b]. *)
Definition orElse (a b : option jsstring) : option jsstring :=
  match a with
  | Some (_ :: _) => a
  | _ => b
  end.

(** A session as the server lists it. *)
Record Session := {
  id : jsstring;
  name : option jsstring;
  session_name : option jsstring;
  pdf_filename : option jsstring;
  updated_at : option jsstring;
  created_at : option jsstring
}.

(** [session.name || session.session_name || 'Untitled Session'] *)
Definition sessionName (session : Session) : jsstring :=
  match orElse (orElse session.(name) session.(session_name))
          (Some (str "Untitled Session")) with
  | Some shown => shown
  | None => []
  end.

(** [truncateText]; [substring(0, maxLength - 3)] takes nothing when
    [maxLength] is below 3. *)
Definition truncateText (text : option jsstring) (maxLength : nat) : jsstring :=
  match text with
  | None | Some [] => []
  | Some text =>
      if length text <=? maxLength then text
      else firstn (maxLength - 3) text ++ str "..."
  end.

(** The name [createSessionElement] shows for a session. *)
Definition shownName (session : Session) : jsstring :=
  truncateText (Some (sessionName session)) 25.

Section Grouping.

(** [new Date(t).toDateString()] for a time stamp [t], and the same for now
    and for 24 hours ago.  A date string is neither an array index nor a
    property of [Object.prototype], so the keys of [grouped] are listed in
    the order of their insertion. *)
Variable dayOf : option jsstring -> jsstring.
Variables today yesterday : jsstring.

Definition groupKey (session : Session) : jsstring :=
  let date := dayOf (orElse session.(updated_at) session.(created_at)) in
  if strEq date today then str "Today"
  else if strEq date yesterday then str "Yesterday"
  else date.

(** [if (!grouped[groupKey]) grouped[groupKey] = []; grouped[groupKey].push(session)] *)
Fixpoint addToGroup (key : jsstring) (session : Session)
    (grouped : list (jsstring * list Session)) : list (jsstring * list Session) :=
  match grouped with
  | [] => [(key, [session])]
  | (k, members) :: rest =>
      if strEq k key then (k, members ++ [session]) :: rest
      else (k, members) :: addToGroup key session rest
  end.

Definition groupSessionsByDate (sessions : list Session)
    : list (jsstring * list Session) :=
  fold_left (fun grouped session => addToGroup (groupKey session) session grouped)
    sessions [].

End Grouping.

(** The [state] of the history, with the calls of [loadSession] that have
    passed their guard and not reached their [finally] block. *)
Inductive LoadPhase := AwaitingServer | AwaitingPdf.

Record State := {
  sessions : list Session;
  currentSessionId : option jsstring;
  isLoading : bool;
  loading : list (jsstring * LoadPhase)
}.

(** [sessionId === state.currentSessionId] *)
Definition isCurrent (sessionId : jsstring) (st : State) : bool :=
  match st.(currentSessionId) with
  | Some current => strEq sessionId current
  | None => false
  end.

(** [deleteSession] once the server has answered with [data.success]; an
    answer without it, or a rejected request, leaves the state as it is. *)
Definition deleteSettled (success : bool) (sessionId : jsstring) (st : State)
    : State :=
  if success then
    {| sessions :=
         List.filter (fun s => negb (strEq s.(id) sessionId)) st.(sessions);
       currentSessionId :=
         if isCurrent sessionId st then None else st.(currentSessionId);
       isLoading := st.(isLoading);
       loading := st.(loading) |}
  else st.

(** The name [renameSession] sends to the server for the answer to its
    prompt ([None] when the prompt is cancelled), if it sends one. *)
Definition renameRequest (currentName : jsstring) (answer : option jsstring)
    : option jsstring :=
  match answer with
  | None | Some [] => None
  | Some newName => if strEq newName currentName then None else Some newName
  end.

(** [state.sessions.find(s => s.id === sessionId)] with both names of the
    session found set to [newName]. *)
Fixpoint renameFirst (sessionId newName : jsstring) (l : list Session)
    : list Session :=
  match l with
  | [] => []
  | s :: rest =>
      if strEq s.(id) sessionId then
        {| id := s.(id); name := Some newName; session_name := Some newName;
           pdf_filename := s.(pdf_filename); updated_at := s.(updated_at);
           created_at := s.(created_at) |} :: rest
      else s :: renameFirst sessionId newName rest
  end.

Definition renameSettled (success : bool) (sessionId newName : jsstring)
    (st : State) : State :=
  if success then
    {| sessions := renameFirst sessionId newName st.(sessions);
       currentSessionId := st.(currentSessionId);
       isLoading := st.(isLoading);
       loading := st.(loading) |}
  else st.

(** [loadUserSessions] once the server has answered with [data.success]:
    [data.sessions || []] and [data.current_session || state.currentSessionId]. *)
Definition sessionsFetched (listed : option (list Session))
    (current : option jsstring) (st : State) : State :=
  {| sessions := match listed with Some l => l | None => [] end;
     currentSessionId := orElse current st.(currentSessionId);
     isLoading := st.(isLoading);
     loading := st.(loading) |}.

(** [loadSession] up to its first [await]. *)
Definition loadSession (sessionId : jsstring) (st : State) : State :=
  if st.(isLoading) || isCurrent sessionId st then st
  else
    {| sessions := st.(sessions);
       currentSessionId := st.(currentSessionId);
       isLoading := true;
       loading := st.(loading) ++ [(sessionId, AwaitingServer)] |}.

(** How the two requests of [loadSession] end: something is thrown (a
    request is rejected or not [ok], or the session is refused), the messages
    come without [success], or they come with it, with or without a PDF to
    load. *)
Inductive LoadOutcome :=
| LoadFailed
| MessagesRefused
| MessagesLoaded (withPdf : bool).

(** The [finally] block, for the call at the head of [loading]. *)
Definition loadFinally (st : State) : State :=
  {| sessions := st.(sessions);
     currentSessionId := st.(currentSessionId);
     isLoading := false;
     loading := tail st.(loading) |}.

(** [loadSession] from the answer of the server on, up to the [await] of
    [loadSessionPDF] when there is a PDF, else to its end. *)
Definition loadAnswered (o : LoadOutcome) (st : State) : State :=
  match st.(loading) with
  | (sessionId, AwaitingServer) :: rest =>
      match o with
      | LoadFailed | MessagesRefused => loadFinally st
      | MessagesLoaded withPdf =>
          let st' :=
            {| sessions := st.(sessions);
               currentSessionId := Some sessionId;
               isLoading := st.(isLoading);
               loading := if withPdf then (sessionId, AwaitingPdf) :: rest
                          else st.(loading) |} in
          if withPdf then st' else loadFinally st'
      end
  | _ => st
  end.

(** [loadSession] after [loadSessionPDF], which catches what it throws. *)
Definition pdfLoaded (st : State) : State :=
  match st.(loading) with
  | (_, AwaitingPdf) :: _ => loadFinally st
  | _ => st
  end.

Inductive Event :=
| SessionClicked (sessionId : jsstring)
| LoadAnswered (o : LoadOutcome)
| PdfLoaded
| DeleteSettled (success : bool) (sessionId : jsstring)
| RenameSettled (success : bool) (sessionId newName : jsstring)
| SessionsFetched (listed : option (list Session)) (current : option jsstring).

Definition step (st : State) (e : Event) : State :=
  match e with
  | SessionClicked sessionId => loadSession sessionId st
  | LoadAnswered o => loadAnswered o st
  | PdfLoaded => pdfLoaded st
  | DeleteSettled success sessionId => deleteSettled success sessionId st
  | RenameSettled success sessionId newName =>
      renameSettled success sessionId newName st
  | SessionsFetched listed current => sessionsFetched listed current st
  end.

(** The state as the script creates it. *)
Definition initial : State :=
  {| sessions := []; currentSessionId := None; isLoading := false; loading := [] |}.

Definition run (events : list Event) : State := fold_left step events initial.

(** The members of the group with key [key], none when there is no such
    group. *)
Fixpoint groupOf (key : jsstring) (grouped : list (jsstring * list Session))
    : list Session :=
  match grouped with
  | [] => []
  | (k, members) :: rest => if strEq k key then members else groupOf key rest
  end.

End History.

(** A call of [loadSession] is on its way exactly while [isLoading] is set,
    and then it is the only one. *)
Definition oneLoad (st : History.State) : Prop :=
  (History.isLoading st = false /\ History.loading st = []) \/
  (History.isLoading st = true /\
   exists sessionId phase, History.loading st = [(sessionId, phase)]).

(** ** Restoring the chat of a session *)

(** The style [addMessage] gives a message: the one of the user for the
    sender ['user'], the one of the assistant for any other. *)
Definition senderOf (sender : jsstring) : Sender :=
  if History.strEq sender (str "user") then User else Ai.

(** [messagesContainer.innerHTML = ''] *)
Definition clearMessages (w : World) : World :=
  setDom
    {| messageInput := w.(dom).(messageInput);
       sendButton := w.(dom).(sendButton);
       messagesContainer := (fun _ => []) <$> w.(dom).(messagesContainer);
       typingIndicator := w.(dom).(typingIndicator);
       emptyState := w.(dom).(emptyState) |} w.

(** [restoreChatMessages] of the history, on messages given as sender and
    content; [addMessageDefined] tells whether [window.addMessage] is
    defined. *)
Definition restoreChatMessages (addMessageDefined : bool)
    (messages : option (list (jsstring * jsstring))) (w : World) : World :=
  match messages with
  | None | Some [] => w
  | Some messages =>
      match w.(dom).(messagesContainer) with
      | None => w
      | Some _ =>
          fold_left
            (fun w message =>
               if History.strEq (fst message) (str "system") then w
               else if addMessageDefined
                    then addMessage (senderOf (fst message)) (Text (snd message)) w
                    else w)
            messages (clearMessages w)
      end
  end.

(** The restored form of the messages of a session. *)
Definition restoredMessages (messages : list (jsstring * jsstring))
    : list (Sender * Content) :=
  map (fun message => (senderOf (fst message), Text (snd message)))
    (List.filter (fun message => negb (History.strEq (fst message) (str "system")))
       messages).

(** ** The upload widgets *)

Module Upload.

(** The [display] an element is given, or the one it was loaded with. *)
Inductive Display := AsLoaded | DisplayNone | DisplayBlock | DisplayFlex.

(** What [#upload-status] shows: one constructor for each markup the
    functions below write into it. *)
Inductive Status :=
| StatusAsLoaded
| Processing
| Loaded (filename : jsstring)
| Failed
| ErrorMessage (message : jsstring).

(** The label of [#upload-compact-btn]. *)
Inductive Label := LabelAsLoaded | ChangePdf.

(** The elements of the upload bar, [None] for a missing one; the bar and
    the steps are whether they have the class [processing], [active]; the
    button is its [disabled] flag and its label; the progress bar is the
    percentage of its width ([None] inside for the width it was loaded
    with); [alerts] are the messages passed to [alert]. *)
Record Ui := {
  uploadSection : option Display;
  processingContainer : option Display;
  uploadBar : option bool;
  uploadStatus : option Status;
  processingSteps : option bool;
  uploadCompactBtn : option (bool * Label);
  progressBar : option (option nat);
  alerts : list jsstring
}.

Definition updateProgressBar (percentage : nat) (ui : Ui) : Ui :=
  {| uploadSection := ui.(uploadSection);
     processingContainer := ui.(processingContainer);
     uploadBar := ui.(uploadBar);
     uploadStatus := ui.(uploadStatus);
     processingSteps := ui.(processingSteps);
     uploadCompactBtn := ui.(uploadCompactBtn);
     progressBar := (fun _ => Some percentage) <$> ui.(progressBar);
     alerts := ui.(alerts) |}.

Definition showProcessingState (ui : Ui) : Ui :=
  updateProgressBar 0
    {| uploadSection := (fun _ => DisplayNone) <$> ui.(uploadSection);
       processingContainer := (fun _ => DisplayBlock) <$> ui.(processingContainer);
       uploadBar := (fun _ => true) <$> ui.(uploadBar);
       uploadStatus := (fun _ => Processing) <$> ui.(uploadStatus);
       processingSteps := (fun _ => true) <$> ui.(processingSteps);
       uploadCompactBtn := (fun b => (true, snd b)) <$> ui.(uploadCompactBtn);
       progressBar := ui.(progressBar);
       alerts := ui.(alerts) |}.

(** The function [completeProcessing] hands to [setTimeout]. *)
Definition completeProcessingLater (filename : jsstring) (ui : Ui) : Ui :=
  {| uploadSection := ui.(uploadSection);
     processingContainer := (fun _ => DisplayNone) <$> ui.(processingContainer);
     uploadBar := (fun _ => false) <$> ui.(uploadBar);
     uploadStatus := (fun _ => Loaded filename) <$> ui.(uploadStatus);
     processingSteps := ui.(processingSteps);
     uploadCompactBtn := (fun _ => (false, ChangePdf)) <$> ui.(uploadCompactBtn);
     progressBar := ui.(progressBar);
     alerts := ui.(alerts) |}.

Definition resetUploadState (ui : Ui) : Ui :=
  {| uploadSection := (fun _ => DisplayFlex) <$> ui.(uploadSection);
     processingContainer := (fun _ => DisplayNone) <$> ui.(processingContainer);
     uploadBar := (fun _ => false) <$> ui.(uploadBar);
     uploadStatus := (fun _ => Failed) <$> ui.(uploadStatus);
     processingSteps := ui.(processingSteps);
     uploadCompactBtn := (fun b => (false, snd b)) <$> ui.(uploadCompactBtn);
     progressBar := ui.(progressBar);
     alerts := ui.(alerts) |}.

Definition showError (message : jsstring) (ui : Ui) : Ui :=
  let ui :=
    {| uploadSection := ui.(uploadSection);
       processingContainer := ui.(processingContainer);
       uploadBar := ui.(uploadBar);
       uploadStatus := (fun _ => ErrorMessage message) <$> ui.(uploadStatus);
       processingSteps := ui.(processingSteps);
       uploadCompactBtn := ui.(uploadCompactBtn);
       progressBar := ui.(progressBar);
       alerts := ui.(alerts) ++ [message] |} in
  resetUploadState ui.

(** The [catch] block of [processFile], for the message of what was
    thrown. *)
Definition onProcessError (message : jsstring) (ui : Ui) : Ui :=
  resetUploadState (showError (str "Error processing file: " ++ message) ui).

(** An element of the list of steps: its classes in their order, and the
    class name of its icon when it has one. *)
Record StepElement := {
  classList : list jsstring;
  icon : option jsstring
}.

(** [classList.contains(token)] *)
Definition hasClass (token : jsstring) (classes : list jsstring) : bool :=
  existsb (History.strEq token) classes.

(** [classList.remove(token)] *)
Definition removeClass (token : jsstring) (classes : list jsstring)
    : list jsstring :=
  List.filter (fun c => negb (History.strEq token c)) classes.

(** [classList.add(token)] *)
Definition addClass (token : jsstring) (classes : list jsstring) : list jsstring :=
  if hasClass token classes then classes else classes ++ [token].

(** The document as far as the steps go: the elements with their id, in
    document order; [getElementById] finds the first with the id. *)
Fixpoint getElementById (elementId : jsstring)
    (elements : list (jsstring * StepElement)) : option StepElement :=
  match elements with
  | [] => None
  | (i, element) :: rest =>
      if History.strEq i elementId then Some element
      else getElementById elementId rest
  end.

(** The document with the first element of the id replaced. *)
Fixpoint setElement (elementId : jsstring) (element : StepElement)
    (elements : list (jsstring * StepElement)) : list (jsstring * StepElement) :=
  match elements with
  | [] => []
  | (i, old) :: rest =>
      if History.strEq i elementId then (i, element) :: rest
      else (i, old) :: setElement elementId element rest
  end.

Definition updateProcessingStep (stepId status : jsstring)
    (elements : list (jsstring * StepElement)) : list (jsstring * StepElement) :=
  match getElementById stepId elements with
  | None => elements
  | Some step =>
      let classes :=
        removeClass (str "completed") (removeClass (str "active") step.(classList)) in
      if History.strEq status (str "active") then
        setElement stepId
          {| classList := addClass (str "active") classes;
             icon := (fun _ => str "fas fa-spinner fa-spin") <$> step.(icon) |}
          elements
      else if History.strEq status (str "completed") then
        setElement stepId
          {| classList := addClass (str "completed") classes;
             icon := (fun _ => str "fas fa-check-circle") <$> step.(icon) |}
          elements
      else
        setElement stepId {| classList := classes; icon := step.(icon) |} elements
  end.

End Upload.

(** ** Sample sessions *)

Module SampleHistory.

(** Time stamps that are their own day string. *)
Definition dayOf (stamp : option jsstring) : jsstring := default [] stamp.

Definition today : jsstring := str "Thu May 02 2024".
Definition yesterday : jsstring := str "Wed May 01 2024".

Definition cells : History.Session :=
  {| History.id := str "s1"; History.name := Some (str "Cells");
     History.session_name := None; History.pdf_filename := Some (str "cell.pdf");
     History.updated_at := Some today; History.created_at := Some yesterday |}.

Definition plants : History.Session :=
  {| History.id := str "s2"; History.name := None;
     History.session_name := Some (str "Plants"); History.pdf_filename := None;
     History.updated_at := None; History.created_at := Some yesterday |}.

Definition untitled : History.Session :=
  {| History.id := str "s3"; History.name := None; History.session_name := None;
     History.pdf_filename := None;
     History.updated_at := Some today; History.created_at := None |}.

End SampleHistory.

(** * Properties *)

(** ** Code units *)

Ltac each_code_unit c :=
  destruct c as [[] [] [] [] [] [] [] []]; vm_compute; try reflexivity;
  try discriminate; auto.

Lemma toLowerChar_idem c : toLowerChar (toLowerChar c) = toLowerChar c.
Proof. each_code_unit c. Qed.

Lemma isSpace_toLowerChar c : isSpace (toLowerChar c) = isSpace c.
Proof. each_code_unit c. Qed.

Lemma isSpace_not_word c : isSpace c = true -> isWord c = false.
Proof. each_code_unit c. Qed.

Lemma toLowerCase_idem s : toLowerCase (toLowerCase s) = toLowerCase s.
Proof.
  unfold toLowerCase. rewrite map_map.
  apply map_ext. intros c. apply toLowerChar_idem.
Qed.

Lemma toLowerCase_app s t :
  toLowerCase (s ++ t) = toLowerCase s ++ toLowerCase t.
Proof. apply map_app. Qed.

(** ** Occurrence of one string in another *)

Lemma startsWith_spec s p :
  startsWith s p = true <-> exists rest, s = p ++ rest.
Proof.
  revert s. induction p as [|a p IH]; intros s; simpl.
  - split; [intros _; exists s; reflexivity | destruct s; reflexivity].
  - destruct s as [|b s]; simpl.
    + split; [discriminate | intros [rest H]; discriminate].
    + rewrite andb_true_iff, IH. unfold ascii_eqb. rewrite Ascii.eqb_eq.
      split.
      * intros [-> [rest ->]]. exists rest. reflexivity.
      * intros [rest H]. injection H as -> ->. split; [reflexivity | eauto].
Qed.

Lemma includes_nil t : includes [] t = startsWith [] t.
Proof. simpl. apply orb_false_r. Qed.

Lemma includes_cons c s t :
  includes (c :: s) t = startsWith (c :: s) t || includes s t.
Proof. reflexivity. Qed.

Lemma includes_spec s t : includes s t = true <-> occursIn t s.
Proof.
  unfold occursIn. induction s as [|c s IH].
  - rewrite includes_nil, startsWith_spec. split.
    + intros [rest H]. exists [], rest. exact H.
    + intros [before [after H]]. destruct before; simpl in H.
      * eauto.
      * discriminate.
  - rewrite includes_cons, orb_true_iff, startsWith_spec, IH. split.
    + intros [[rest H] | [before [after H]]].
      * exists [], rest. exact H.
      * exists (c :: before), after. simpl. congruence.
    + intros [before [after H]]. destruct before as [|b before]; simpl in H.
      * left. eauto.
      * right. injection H as _ H. eauto.
Qed.

Lemma includes_false s t : includes s t = false <-> ~ occursIn t s.
Proof.
  rewrite <- includes_spec. destruct (includes s t); split; intros H;
    try reflexivity; try discriminate; try (intros H'; discriminate).
  exfalso. apply H. reflexivity.
Qed.

Lemma occursIn_refl s : occursIn s s.
Proof. exists [], []. simpl. rewrite app_nil_r. reflexivity. Qed.

Lemma occursIn_trans r s t : occursIn r s -> occursIn s t -> occursIn r t.
Proof.
  intros [a [b ->]] [c [d ->]]. exists (c ++ a), (b ++ d).
  repeat rewrite <- app_assoc. reflexivity.
Qed.

Lemma occursIn_toLowerCase t s :
  occursIn t s -> occursIn (toLowerCase t) (toLowerCase s).
Proof.
  intros [a [b ->]]. exists (toLowerCase a), (toLowerCase b).
  repeat rewrite toLowerCase_app. reflexivity.
Qed.

Lemma occursIn_length t s : occursIn t s -> length t <= length s.
Proof. intros [a [b ->]]. repeat rewrite length_app. lia. Qed.

(** ** Trimming *)

Lemma trimStart_length s : length (trimStart s) <= length s.
Proof. induction s as [|c s IH]; simpl; [lia|]. destruct (isSpace c); simpl; lia. Qed.

Lemma trimStart_suffix s : exists spaces, s = spaces ++ trimStart s.
Proof.
  induction s as [|c s [spaces IH]]; simpl.
  - exists []. reflexivity.
  - destruct (isSpace c).
    + exists (c :: spaces). simpl. congruence.
    + exists []. reflexivity.
Qed.

Lemma trimStart_fixed_head c s : trimStart (c :: s) = c :: s -> isSpace c = false.
Proof.
  simpl. destruct (isSpace c); [|reflexivity].
  intros H. pose proof (trimStart_length s) as L. rewrite H in L. simpl in L. lia.
Qed.

Lemma trimStart_idem s : trimStart (trimStart s) = trimStart s.
Proof.
  induction s as [|c s IH]; simpl; [reflexivity|].
  destruct (isSpace c) eqn:E; [exact IH|]. simpl. rewrite E. reflexivity.
Qed.

Lemma trimStart_snoc s c :
  isSpace c = false -> trimStart (s ++ [c]) = trimStart s ++ [c].
Proof.
  intros E. induction s as [|d s IH]; simpl.
  - rewrite E. reflexivity.
  - destruct (isSpace d); [exact IH | reflexivity].
Qed.

Lemma trimStart_toLowerCase s :
  trimStart (toLowerCase s) = toLowerCase (trimStart s).
Proof.
  induction s as [|c s IH]; simpl; [reflexivity|].
  rewrite isSpace_toLowerChar. destruct (isSpace c); [exact IH | reflexivity].
Qed.

Lemma trimEnd_toLowerCase s : trimEnd (toLowerCase s) = toLowerCase (trimEnd s).
Proof.
  unfold trimEnd, toLowerCase. rewrite <- map_rev.
  fold (toLowerCase (rev s)). rewrite trimStart_toLowerCase.
  unfold toLowerCase. rewrite map_rev. reflexivity.
Qed.

Lemma trim_toLowerCase s : trim (toLowerCase s) = toLowerCase (trim s).
Proof. unfold trim. rewrite trimStart_toLowerCase. apply trimEnd_toLowerCase. Qed.

Lemma trimEnd_idem s : trimEnd (trimEnd s) = trimEnd s.
Proof. unfold trimEnd. rewrite rev_involutive, trimStart_idem. reflexivity. Qed.

Lemma trimEnd_keeps_start s : trimStart s = s -> trimStart (trimEnd s) = trimEnd s.
Proof.
  destruct s as [|c s]; [reflexivity|]. intros H.
  apply trimStart_fixed_head in H. unfold trimEnd. simpl rev.
  rewrite (trimStart_snoc _ _ H), rev_app_distr. simpl. rewrite H. reflexivity.
Qed.

Lemma trim_idem s : trim (trim s) = trim s.
Proof.
  unfold trim. rewrite (trimEnd_keeps_start _ (trimStart_idem s)).
  apply trimEnd_idem.
Qed.

Lemma trimEnd_prefix s : exists spaces, s = trimEnd s ++ spaces.
Proof.
  unfold trimEnd. destruct (trimStart_suffix (rev s)) as [spaces H].
  exists (rev spaces). rewrite <- rev_app_distr, <- H, rev_involutive. reflexivity.
Qed.

Lemma trim_occursIn s : occursIn (trim s) s.
Proof.
  unfold trim. destruct (trimStart_suffix s) as [a Ha].
  destruct (trimEnd_prefix (trimStart s)) as [b Hb].
  exists a, b. rewrite <- Hb. exact Ha.
Qed.

Lemma cleanSearchOf_toLowerCase s : cleanSearchOf (toLowerCase s) = cleanSearchOf s.
Proof. unfold cleanSearchOf. rewrite toLowerCase_idem. reflexivity. Qed.

Lemma cleanSearchOf_trim s : cleanSearchOf (trim s) = cleanSearchOf s.
Proof. unfold cleanSearchOf. rewrite <- trim_toLowerCase. apply trim_idem. Qed.

Lemma cleanSearchOf_occursIn s : occursIn (cleanSearchOf s) (toLowerCase s).
Proof. apply trim_occursIn. Qed.

Lemma cleanSearchOf_lower s c : In c (cleanSearchOf s) -> toLowerChar c = c.
Proof.
  intros H. destruct (cleanSearchOf_occursIn s) as [a [b E]].
  assert (Hc : In c (toLowerCase s)).
  { rewrite E. apply in_or_app. right. apply in_or_app. left. exact H. }
  unfold toLowerCase in Hc. apply in_map_iff in Hc as [d [<- _]].
  apply toLowerChar_idem.
Qed.

(** ** Splitting at white space *)

Lemma splitSpaces_piece s : forall cur piece,
  In piece (splitSpaces cur s) ->
  (exists p rest, piece = cur ++ p /\ s = p ++ rest /\ noSpace p) \/
  (occursIn piece s /\ noSpace piece).
Proof.
  induction s as [|c s IH]; intros cur piece Hin.
  - simpl in Hin. destruct Hin as [<- | []].
    left. exists [], []. rewrite app_nil_r. repeat split. constructor.
  - simpl in Hin. destruct (isSpace c) eqn:Ec.
    + assert (Hsplit :
        In piece (cur :: splitSpaces [] s) \/
        (In piece (splitSpaces cur s) /\
         exists c' s', s = c' :: s' /\ isSpace c' = true)).
      { destruct s as [|c' s'] eqn:Es; [left; exact Hin|].
        destruct (isSpace c') eqn:Ec'; [right | left; exact Hin].
        split; [exact Hin | eauto]. }
      destruct Hsplit as [[<- | Hin'] | [Hin' [c' [s' [Es Ec']]]]].
      * left. exists [], (c :: s). rewrite app_nil_r. repeat split. constructor.
      * right. destruct (IH _ _ Hin') as [[p [rest [-> [-> Hp]]]] | [[a [b ->]] Hp]].
        -- split; [exists [c], rest; reflexivity | exact Hp].
        -- split; [exists (c :: a), b; reflexivity | exact Hp].
      * destruct (IH _ _ Hin') as [[p [rest [-> [E Hp]]]] | [[a [b ->]] Hp]].
        -- left. destruct p as [|d p].
           ++ exists [], (c :: s). repeat split. constructor.
           ++ exfalso. rewrite Es in E. simpl in E. injection E as <- _.
              inversion Hp; subst. congruence.
        -- right. split; [exists (c :: a), b; reflexivity | exact Hp].
    + destruct (IH _ _ Hin) as [[p [rest [-> [-> Hp]]]] | [[a [b ->]] Hp]].
      * left. exists (c :: p), rest. rewrite <- app_assoc. repeat split.
        constructor; assumption.
      * right. split; [exists (c :: a), b; reflexivity | exact Hp].
Qed.

Lemma split_ws_piece s piece :
  In piece (split_ws s) -> occursIn piece s /\ noSpace piece.
Proof.
  intros Hin. destruct (splitSpaces_piece _ _ _ Hin)
    as [[p [rest [-> [-> Hp]]]] | H]; [|exact H].
  split; [exists [], rest; reflexivity | exact Hp].
Qed.

Lemma replaceNonWord_kept c :
  isSpace (if isWord c || isSpace c then c else " "%char) = false ->
  (if isWord c || isSpace c then c else " "%char) = c /\ isWord c = true.
Proof.
  destruct (isWord c) eqn:Ew; simpl; [auto|].
  destruct (isSpace c) eqn:Es; [congruence | discriminate].
Qed.

Lemma replaceNonWord_piece s piece :
  occursIn piece (replaceNonWord s) -> noSpace piece ->
  occursIn piece s /\ Forall (fun c => isWord c = true) piece.
Proof.
  intros [a [b E]] Hp. unfold replaceNonWord in E.
  apply map_eq_app in E as [a0 [r [-> [Ea E]]]].
  apply map_eq_app in E as [p0 [b0 [-> [Ep Eb]]]].
  assert (H : p0 = piece /\ Forall (fun c => isWord c = true) p0).
  { clear Ea Eb. revert piece Hp Ep. induction p0 as [|c p0 IH]; intros piece Hp Ep.
    - simpl in Ep. subst. split; [reflexivity | constructor].
    - simpl in Ep. subst piece. inversion Hp as [|? ? Hc Hrest]; subst.
      destruct (replaceNonWord_kept _ Hc) as [E1 E2].
      destruct (IH _ Hrest eq_refl) as [E3 E4].
      split; [congruence | constructor; assumption]. }
  destruct H as [<- Hw]. split; [exists a0, b0; reflexivity | exact Hw].
Qed.

(** Every content word is a run of word characters of the cleaned segment,
    longer than three code units. *)
Lemma meaningfulWordsOf_word cleanSearch word :
  In word (meaningfulWordsOf cleanSearch) ->
  occursIn word cleanSearch /\ Forall (fun c => isWord c = true) word /\
  3 < length word.
Proof.
  unfold meaningfulWordsOf. rewrite filter_In. intros [Hin Hlen].
  apply split_ws_piece in Hin as [Hocc Hns].
  destruct (replaceNonWord_piece _ _ Hocc Hns) as [H1 H2].
  repeat split; [exact H1 | exact H2 | apply Nat.ltb_lt; exact Hlen].
Qed.

(** ** The score of a page *)

Lemma pageScore_fold pageTextLower words : forall acc,
  fold_left
    (fun score word => if includes pageTextLower word then score + 10 else score)
    words acc
  = acc + 10 * length (List.filter (includes pageTextLower) words).
Proof.
  induction words as [|w words IH]; intros acc; simpl; [lia|].
  rewrite IH. destruct (includes pageTextLower w); simpl; lia.
Qed.

Lemma pageScore_count cleanSearch words pageTextLower :
  pageScore cleanSearch words pageTextLower
  = (if includes pageTextLower cleanSearch then 100 else 0)
    + 10 * length (List.filter (includes pageTextLower) words).
Proof.
  unfold pageScore. rewrite pageScore_fold.
  destruct (includes pageTextLower cleanSearch); reflexivity.
Qed.

Lemma visitPage_keepBest searchText pages bestMatch pageNum :
  visitPage pages (cleanSearchOf searchText)
    (meaningfulWordsOf (cleanSearchOf searchText)) bestMatch pageNum
  = keepBest (scoreOfPage searchText pages) bestMatch pageNum.
Proof.
  unfold visitPage, keepBest, scoreOfPage, scoreOf.
  destruct (pages !! pageNum) as [[|c t]|]; try reflexivity.
Qed.

Lemma fold_visitPage searchText pages pageNums : forall bestMatch,
  fold_left (visitPage pages (cleanSearchOf searchText)
               (meaningfulWordsOf (cleanSearchOf searchText))) pageNums bestMatch
  = fold_left (keepBest (scoreOfPage searchText pages)) pageNums bestMatch.
Proof.
  induction pageNums as [|q rest IH]; intros bm; simpl; [reflexivity|].
  rewrite visitPage_keepBest. apply IH.
Qed.

(** ** The loop over the pages *)

Section Loop.

Variable sc : nat -> nat.

Lemma keepBest_score bm q :
  bm.(score) <= (keepBest sc bm q).(score) /\ sc q <= (keepBest sc bm q).(score).
Proof.
  unfold keepBest. destruct (Nat.ltb_spec bm.(score) (sc q)); simpl; lia.
Qed.

Lemma loop_best n : forall first bm,
  let r := fold_left (keepBest sc) (seq first n) bm in
  bm.(score) <= r.(score) /\
  (forall q, first <= q < first + n -> sc q <= r.(score)) /\
  (r = bm \/
   (first <= r.(page) < first + n /\ r.(score) = sc r.(page) /\
    bm.(score) < r.(score) /\
    forall q, first <= q < r.(page) -> sc q < r.(score))).
Proof.
  induction n as [|n IH]; intros first bm; simpl.
  - repeat split; [lia | intros q Hq; lia | left; reflexivity].
  - specialize (IH (S first) (keepBest sc bm first)).
    simpl in IH. destruct IH as [H1 [H2 H3]].
    destruct (keepBest_score bm first) as [K1 K2].
    split; [lia|]. split.
    + intros q Hq. destruct (Nat.eq_dec q first) as [->|Hne]; [lia|].
      apply H2. lia.
    + destruct H3 as [H3 | [H3 [H4 [H5 H6]]]].
      * rewrite H3. unfold keepBest.
        destruct (Nat.ltb_spec bm.(score) (sc first)); [right | left; reflexivity].
        simpl. repeat split; try lia.
      * right. repeat split; try lia.
        intros q Hq. destruct (Nat.eq_dec q first) as [->|Hne]; [lia|].
        apply H6. lia.
Qed.

End Loop.

Lemma meaningfulWordsOf_nonempty searchText :
  meaningfulWordsOf (cleanSearchOf searchText) <> [] -> searchText <> [].
Proof. intros H ->. apply H. reflexivity. Qed.

Lemma findPageForText_loop searchText pages total :
  meaningfulWordsOf (cleanSearchOf searchText) <> [] ->
  findPageForText (Some searchText) (Some pages) total
  = let bm := fold_left (keepBest (scoreOfPage searchText pages)) (seq 1 total)
                {| page := 1; score := 0 |} in
    if 0 <? bm.(score) then bm.(page) else 1.
Proof.
  intros Hw. pose proof (meaningfulWordsOf_nonempty _ Hw) as Hs.
  unfold findPageForText. destruct searchText as [|c s]; [congruence|].
  destruct (meaningfulWordsOf (cleanSearchOf (c :: s))) as [|w ws] eqn:E;
    [congruence|].
  simpl length. simpl Nat.eqb. cbv iota. rewrite <- E, fold_visitPage. reflexivity.
Qed.

Lemma findPageForText_no_words searchText pages total :
  meaningfulWordsOf (cleanSearchOf searchText) = [] ->
  findPageForText (Some searchText) pages total = 1.
Proof.
  intros E. unfold findPageForText.
  destruct searchText as [|c s]; [reflexivity|].
  destruct pages as [pages|]; [|reflexivity].
  rewrite E. reflexivity.
Qed.

(** What the routine returns for a segment that has a content word: the
    first page of 1..[total] whose score is the largest, when that score is
    positive, and page 1 otherwise. *)
Lemma findPageForText_best searchText pages total :
  meaningfulWordsOf (cleanSearchOf searchText) <> [] ->
  let r := findPageForText (Some searchText) (Some pages) total in
  let sc := scoreOfPage searchText pages in
  (forall q, 1 <= q <= total -> sc q <= sc r) /\
  (forall q, 1 <= q <= total -> sc q = sc r -> r <= q) /\
  (r = 1 \/ (1 <= r <= total /\ 0 < sc r)).
Proof.
  intros Hw. cbv zeta. rewrite (findPageForText_loop _ _ _ Hw). cbv zeta.
  pose proof (loop_best (scoreOfPage searchText pages) total 1
                {| page := 1; score := 0 |}) as L.
  cbv zeta in L. simpl score in L. simpl page in L.
  set (r := fold_left _ _ _) in *. destruct L as [_ [Hmax Hr]].
  destruct (Nat.ltb_spec 0 r.(score)) as [Hpos | Hzero].
  - destruct Hr as [-> | [Hin [Hsc [_ Hlow]]]]; [simpl in Hpos; lia|].
    repeat split.
    + intros q Hq. rewrite <- Hsc. apply Hmax. lia.
    + intros q Hq Heq. destruct (Nat.le_gt_cases r.(page) q) as [|Hlt]; [assumption|].
      specialize (Hlow q). rewrite Hsc in Hlow. lia.
    + right. rewrite <- Hsc. lia.
  - repeat split.
    + intros q Hq. specialize (Hmax q). lia.
    + intros q Hq _. lia.
    + left. reflexivity.
Qed.

(** ** The score formula *)

(** C1, as the script computes it: the score of a page is 100 when the
    lower-cased, trimmed segment occurs in the lower-cased page text, plus 10
    for every content word of the segment that occurs in the lower-cased page
    text, a word that the segment repeats being counted once per
    repetition. *)
Theorem score_formula (searchText pageText : jsstring) :
  scoreOf searchText pageText
  = (if includes (toLowerCase pageText) (cleanSearchOf searchText)
     then 100 else 0)
    + 10 * length (List.filter (includes (toLowerCase pageText))
                     (meaningfulWordsOf (cleanSearchOf searchText))).
Proof. unfold scoreOf. apply pageScore_count. Qed.

(** C1 as stated fails: for the segment "test test" and the page "a test" the
    loop adds 10 twice, where one distinct content word would give 10. *)
Lemma score_distinct_words_counterexample :
  scoreOf (str "test test") (str "a test") = 20 /\
  Spec.scoreDistinct (str "test test") (str "a test") = 10 /\
  ~ (forall searchText pageText,
       scoreOf searchText pageText = Spec.scoreDistinct searchText pageText).
Proof.
  assert (H1 : scoreOf (str "test test") (str "a test") = 20) by (vm_compute; reflexivity).
  assert (H2 : Spec.scoreDistinct (str "test test") (str "a test") = 10)
    by (vm_compute; reflexivity).
  repeat split; try assumption.
  intros H. specialize (H (str "test test") (str "a test")).
  rewrite H1, H2 in H. discriminate.
Qed.

(** ** The winning page *)

(** C3, for the segments the loop runs on: when the segment has a content
    word and there is at least one page, the routine returns a page of
    1..[total] whose score is the largest of these pages, and no page before
    it has that score. *)
Theorem best_page_lowest (searchText : jsstring) (pages : gmap nat jsstring)
    (total : nat) :
  meaningfulWordsOf (cleanSearchOf searchText) <> [] ->
  1 <= total ->
  let r := findPageForText (Some searchText) (Some pages) total in
  1 <= r <= total /\
  (forall q, 1 <= q <= total ->
     scoreOfPage searchText pages q <= scoreOfPage searchText pages r) /\
  (forall q, 1 <= q <= total ->
     scoreOfPage searchText pages q = scoreOfPage searchText pages r -> r <= q).
Proof.
  intros Hw Ht. destruct (findPageForText_best searchText pages total Hw)
    as [H1 [H2 H3]].
  cbv zeta in *. repeat split; try assumption; destruct H3 as [-> | [H3 _]]; lia.
Qed.

Lemma best_page_lowest_witness :
  1 <= findPageForText (Some Sample.cellSegment) (Some Sample.cellPages) 3 <= 3 /\
  (forall q, 1 <= q <= 3 ->
     scoreOfPage Sample.cellSegment Sample.cellPages q
     <= scoreOfPage Sample.cellSegment Sample.cellPages
          (findPageForText (Some Sample.cellSegment) (Some Sample.cellPages) 3)) /\
  (forall q, 1 <= q <= 3 ->
     scoreOfPage Sample.cellSegment Sample.cellPages q
     = scoreOfPage Sample.cellSegment Sample.cellPages
         (findPageForText (Some Sample.cellSegment) (Some Sample.cellPages) 3) ->
     findPageForText (Some Sample.cellSegment) (Some Sample.cellPages) 3 <= q).
Proof.
  apply (best_page_lowest Sample.cellSegment Sample.cellPages 3);
    [vm_compute; discriminate | lia].
Defined.

(** C3 as stated fails for a segment without a content word: "a cat" occurs
    on page 3 only, which scores 100, and the routine returns page 1, which
    scores 0. *)
Lemma best_page_counterexample :
  findPageForText (Some Sample.catSegment) (Some Sample.catPages) 3 = 1 /\
  scoreOfPage Sample.catSegment Sample.catPages 1 = 0 /\
  scoreOfPage Sample.catSegment Sample.catPages 3 = 100 /\
  ~ (forall (searchText : jsstring) (pages : gmap nat jsstring) (total q : nat),
       1 <= q <= total ->
       scoreOfPage searchText pages q
       <= scoreOfPage searchText pages
            (findPageForText (Some searchText) (Some pages) total)).
Proof.
  assert (H1 : findPageForText (Some Sample.catSegment) (Some Sample.catPages) 3 = 1)
    by (vm_compute; reflexivity).
  assert (H2 : scoreOfPage Sample.catSegment Sample.catPages 1 = 0)
    by (vm_compute; reflexivity).
  assert (H3 : scoreOfPage Sample.catSegment Sample.catPages 3 = 100)
    by (vm_compute; reflexivity).
  repeat split; try assumption.
  intros H. specialize (H Sample.catSegment Sample.catPages 3 3).
  rewrite H1, H2, H3 in H. lia.
Qed.

(** ** The default page *)

(** C4: a segment that is [null] or empty, or has no content word, or scores
    0 on every page of 1..[total], is attributed to page 1. *)
Theorem default_page_one (searchText : option jsstring)
    (pages : gmap nat jsstring) (total : nat) :
  (forall s, searchText = Some s ->
     meaningfulWordsOf (cleanSearchOf s) = [] \/
     forall q, 1 <= q <= total -> scoreOfPage s pages q = 0) ->
  findPageForText searchText (Some pages) total = 1.
Proof.
  intros H. destruct searchText as [s|]; [|reflexivity].
  destruct (H s eq_refl) as [Hw | Hzero].
  - apply findPageForText_no_words. exact Hw.
  - destruct (meaningfulWordsOf (cleanSearchOf s)) as [|w ws] eqn:E.
    + apply findPageForText_no_words. exact E.
    + assert (Hw : meaningfulWordsOf (cleanSearchOf s) <> []) by (rewrite E; discriminate).
      destruct (findPageForText_best s pages total Hw) as [_ [_ Hr]].
      cbv zeta in Hr. destruct Hr as [-> | [Hin Hpos]]; [reflexivity|].
      rewrite (Hzero _ Hin) in Hpos. lia.
Qed.

Lemma default_page_one_witness :
  findPageForText (Some (str "quantum gravity")) (Some Sample.cellPages) 3 = 1.
Proof.
  apply (default_page_one (Some (str "quantum gravity")) Sample.cellPages 3).
  intros s [= <-]. right. intros q Hq.
  assert (Hc : q = 1 \/ q = 2 \/ q = 3) by lia.
  destruct Hc as [-> | [-> | ->]]; vm_compute; reflexivity.
Defined.

(** ** Totality *)

(** C9: whatever the segment ([null] and the empty string included), the page
    map ([null], or with pages missing) and the page count (0 included), the
    routine returns a page number that is at least 1, and it is page 1 or one
    of the pages 1..[total]. *)
Theorem page_at_least_one (searchText : option jsstring)
    (pages : option (gmap nat jsstring)) (total : nat) :
  1 <= findPageForText searchText pages total /\
  findPageForText searchText pages total <= Nat.max 1 total.
Proof.
  destruct searchText as [s|]; [|simpl; lia].
  destruct pages as [pages|]; [|destruct s; simpl; lia].
  destruct (meaningfulWordsOf (cleanSearchOf s)) as [|w ws] eqn:E.
  - rewrite (findPageForText_no_words _ _ _ E). lia.
  - assert (Hw : meaningfulWordsOf (cleanSearchOf s) <> []) by (rewrite E; discriminate).
    destruct (findPageForText_best s pages total Hw) as [_ [_ Hr]].
    cbv zeta in Hr. destruct Hr as [-> | [Hin _]]; lia.
Qed.

(** ** A segment found on one page only *)

Lemma occursIn_nonempty t s : occursIn t s -> t <> [] -> s <> [].
Proof.
  intros H Ht ->. apply occursIn_length in H. destruct t; [congruence|].
  simpl in H. lia.
Qed.

Lemma filter_none {A} (f : A -> bool) (l : list A) :
  (forall x, In x l -> f x = false) -> List.filter f l = [].
Proof.
  induction l as [|x l IH]; intros H; [reflexivity|].
  cbn [List.filter]. rewrite (H x (or_introl eq_refl)).
  apply IH. intros y Hy. apply H. right. exact Hy.
Qed.

(** A page on which the segment occurs as it is scores at least 100. *)
Lemma scoreOfPage_verbatim (searchText : jsstring) (pages : gmap nat jsstring)
    (q : nat) (pageText : jsstring) :
  searchText <> [] -> pages !! q = Some pageText ->
  occursIn searchText pageText ->
  100 <= scoreOfPage searchText pages q.
Proof.
  intros Hs Hq Hocc. unfold scoreOfPage. rewrite Hq.
  pose proof (occursIn_nonempty _ _ Hocc Hs) as Hne.
  destruct pageText as [|c t]; [congruence|].
  unfold scoreOf. rewrite pageScore_count.
  assert (Hin : includes (toLowerCase (c :: t)) (cleanSearchOf searchText) = true).
  { apply includes_spec. eapply occursIn_trans.
    - apply cleanSearchOf_occursIn.
    - apply occursIn_toLowerCase. exact Hocc. }
  rewrite Hin. lia.
Qed.

(** A page on which no content word occurs scores 0, when the segment has a
    content word. *)
Lemma scoreOfPage_no_word (searchText : jsstring) (pages : gmap nat jsstring)
    (q : nat) :
  meaningfulWordsOf (cleanSearchOf searchText) <> [] ->
  (forall pageText word, pages !! q = Some pageText ->
     In word (meaningfulWordsOf (cleanSearchOf searchText)) ->
     includes (toLowerCase pageText) word = false) ->
  scoreOfPage searchText pages q = 0.
Proof.
  intros Hw Hno. unfold scoreOfPage.
  destruct (pages !! q) as [[|c t]|] eqn:Hq; try reflexivity.
  unfold scoreOf. rewrite pageScore_count.
  destruct (meaningfulWordsOf (cleanSearchOf searchText)) as [|w ws] eqn:E;
    [congruence|].
  assert (Hclean : includes (toLowerCase (c :: t)) (cleanSearchOf searchText) = false).
  { apply includes_false. intros Hocc.
    assert (Hin : In w (meaningfulWordsOf (cleanSearchOf searchText)))
      by (rewrite E; left; reflexivity).
    destruct (meaningfulWordsOf_word _ _ Hin) as [Hword _].
    pose proof (Hno (c :: t) w eq_refl (or_introl eq_refl)) as Hfalse.
    apply includes_false in Hfalse. apply Hfalse.
    eapply occursIn_trans; eassumption. }
  rewrite Hclean.
  assert (Hnone : List.filter (includes (toLowerCase (c :: t))) (w :: ws) = []).
  { apply filter_none. intros x Hx. apply (Hno (c :: t) x eq_refl Hx). }
  rewrite Hnone. reflexivity.
Qed.

(** C6, for the segments the loop runs on: when there are at least three
    pages, the segment has a content word and occurs as it is on page 3, and
    none of its content words occurs, letter case ignored, on another page,
    the routine returns page 3. *)
Theorem verbatim_page_three (searchText : jsstring) (pages : gmap nat jsstring)
    (total : nat) (pageText : jsstring) :
  3 <= total ->
  meaningfulWordsOf (cleanSearchOf searchText) <> [] ->
  pages !! 3 = Some pageText ->
  includes pageText searchText = true ->
  (forall q otherText word, q <> 3 -> pages !! q = Some otherText ->
     In word (meaningfulWordsOf (cleanSearchOf searchText)) ->
     includes (toLowerCase otherText) word = false) ->
  findPageForText (Some searchText) (Some pages) total = 3.
Proof.
  intros Ht Hw H3 Hocc Hother.
  apply includes_spec in Hocc.
  pose proof (scoreOfPage_verbatim _ _ _ _ (meaningfulWordsOf_nonempty _ Hw) H3 Hocc)
    as Hbig.
  assert (Hzero : forall q, q <> 3 -> scoreOfPage searchText pages q = 0).
  { intros q Hq. apply scoreOfPage_no_word; [exact Hw|].
    intros t w Ht' Hin. apply (Hother q t w Hq Ht' Hin). }
  destruct (findPageForText_best searchText pages total Hw) as [Hmax [_ Hr]].
  cbv zeta in *. set (r := findPageForText _ _ _) in *.
  destruct (Nat.eq_dec r 3) as [|Hne]; [assumption|].
  specialize (Hmax 3). rewrite (Hzero r Hne) in Hmax. lia.
Qed.

Lemma verbatim_page_three_witness :
  findPageForText (Some (str "Again: the mitochondria"))
    (Some {[ 1 := str "Photosynthesis occurs in chloroplasts.";
             2 := str "Chlorophyll is green.";
             3 := str "Again: the mitochondria is the powerhouse." ]}) 3 = 3.
Proof.
  apply (verbatim_page_three (str "Again: the mitochondria") _ 3
           (str "Again: the mitochondria is the powerhouse.")).
  - lia.
  - vm_compute. discriminate.
  - reflexivity.
  - vm_compute. reflexivity.
  - intros q otherText word Hq Hlook Hin.
    destruct (decide (q = 1)) as [-> | H1].
    + vm_compute in Hlook. injection Hlook as <-.
      vm_compute in Hin. destruct Hin as [<- | [<- | []]]; vm_compute; reflexivity.
    + destruct (decide (q = 2)) as [-> | H2].
      * vm_compute in Hlook. injection Hlook as <-.
        vm_compute in Hin. destruct Hin as [<- | [<- | []]]; vm_compute; reflexivity.
      * rewrite lookup_insert_ne in Hlook by congruence.
        rewrite lookup_insert_ne in Hlook by congruence.
        rewrite lookup_singleton_ne in Hlook by congruence. discriminate.
Defined.

(** C6 as stated fails for a segment without a content word: "a cat" occurs
    on page 3 and on no other page, it has no content word, and the routine
    returns page 1. *)
Lemma verbatim_page_three_counterexample :
  Sample.catPages !! 3 = Some (str "a cat sat") /\
  includes (str "a cat sat") Sample.catSegment = true /\
  meaningfulWordsOf (cleanSearchOf Sample.catSegment) = [] /\
  findPageForText (Some Sample.catSegment) (Some Sample.catPages) 3 = 1 /\
  ~ (forall (searchText : jsstring) (pages : gmap nat jsstring) (total : nat)
       (pageText : jsstring),
       pages !! 3 = Some pageText ->
       includes pageText searchText = true ->
       (forall q otherText, q <> 3 -> pages !! q = Some otherText ->
          includes otherText searchText = false /\
          forall word, In word (meaningfulWordsOf (cleanSearchOf searchText)) ->
            includes (toLowerCase otherText) word = false) ->
       findPageForText (Some searchText) (Some pages) total = 3).
Proof.
  assert (H1 : findPageForText (Some Sample.catSegment) (Some Sample.catPages) 3 = 1)
    by (vm_compute; reflexivity).
  repeat split; try (vm_compute; reflexivity).
  intros H.
  specialize (H Sample.catSegment Sample.catPages 3 (str "a cat sat") eq_refl eq_refl).
  rewrite H1 in H. discriminate H.
  intros q otherText Hq Hlook. split; [|intros word []].
  unfold Sample.catPages in Hlook.
  destruct (decide (q = 1)) as [-> | Hq1];
    [vm_compute in Hlook; injection Hlook as <-; vm_compute; reflexivity|].
  destruct (decide (q = 2)) as [-> | Hq2];
    [vm_compute in Hlook; injection Hlook as <-; vm_compute; reflexivity|].
  rewrite lookup_insert_ne in Hlook by congruence.
  rewrite lookup_insert_ne in Hlook by congruence.
  rewrite lookup_singleton_ne in Hlook by congruence. discriminate.
Qed.

(** ** What is normalized before scoring *)

Lemma meaningfulWordsOf_lower_words searchText :
  Forall (fun word => Forall (fun c => isWord c = true /\ toLowerChar c = c) word)
    (meaningfulWordsOf (cleanSearchOf searchText)).
Proof.
  apply List.Forall_forall. intros word Hin.
  destruct (meaningfulWordsOf_word _ _ Hin) as [[a [b E]] [Hw _]].
  rewrite List.Forall_forall in *. intros c Hc. split; [apply Hw; exact Hc|].
  apply (cleanSearchOf_lower searchText). rewrite E.
  apply in_or_app. right. apply in_or_app. left. exact Hc.
Qed.

Lemma trimStart_spaces s :
  exists spaces,
    s = spaces ++ trimStart s /\ Forall (fun c => isSpace c = true) spaces.
Proof.
  induction s as [|c s [spaces [IH Hsp]]]; simpl.
  - exists []. split; [reflexivity | constructor].
  - destruct (isSpace c) eqn:E.
    + exists (c :: spaces). split; [simpl; congruence | constructor; assumption].
    + exists []. split; [reflexivity | constructor].
Qed.

Lemma trimEnd_spaces s :
  exists spaces,
    s = trimEnd s ++ spaces /\ Forall (fun c => isSpace c = true) spaces.
Proof.
  unfold trimEnd. destruct (trimStart_spaces (rev s)) as [spaces [H Hsp]].
  exists (rev spaces). split.
  - rewrite <- rev_app_distr, <- H, rev_involutive. reflexivity.
  - apply List.Forall_rev. exact Hsp.
Qed.

(** Trimming takes white space away at the two ends and nothing else. *)
Lemma trim_spaces s :
  exists before after,
    s = before ++ trim s ++ after /\
    Forall (fun c => isSpace c = true) before /\
    Forall (fun c => isSpace c = true) after.
Proof.
  unfold trim. destruct (trimStart_spaces s) as [a [Ha Hsa]].
  destruct (trimEnd_spaces (trimStart s)) as [b [Hb Hsb]].
  exists a, b. rewrite <- Hb. auto.
Qed.

Lemma isWord_toLowerChar c : isWord (toLowerChar c) = isWord c.
Proof. each_code_unit c. Qed.

(** C2, as the script does it.  The substring test is made with the
    lower-cased segment less the white space at its two ends, in the
    lower-cased page text; the word tests are made with the pieces longer
    than 3 of that same string, split at white space after every code unit
    that is neither a word character nor white space has become a space, in
    the lower-cased page text.  Lower-casing goes code unit by code unit and
    keeps white space white space and word characters word characters, and
    trimming removes white space at the two ends only: the punctuation and
    the inner white space of the segment stay in the string of the substring
    test, and those of the page stay in the page text, so that every code
    unit of that string has to be on a page that gets the 100.  Hence the
    score does not change when the segment is lower-cased or trimmed
    beforehand or the page text lower-cased beforehand, and the content words
    are made of lower-case word characters only. *)
Theorem scoring_normalization (searchText pageText : jsstring) :
  scoreOf searchText pageText
  = (if includes (toLowerCase pageText) (trim (toLowerCase searchText))
     then 100 else 0)
    + 10 * length
             (List.filter (includes (toLowerCase pageText))
                (List.filter (fun word => 3 <? length word)
                   (split_ws (replaceNonWord (trim (toLowerCase searchText)))))) /\
  (exists before after,
     toLowerCase searchText = before ++ trim (toLowerCase searchText) ++ after /\
     Forall (fun c => isSpace c = true) before /\
     Forall (fun c => isSpace c = true) after) /\
  trimStart (trim (toLowerCase searchText)) = trim (toLowerCase searchText) /\
  trimEnd (trim (toLowerCase searchText)) = trim (toLowerCase searchText) /\
  toLowerCase searchText = map toLowerChar searchText /\
  toLowerCase pageText = map toLowerChar pageText /\
  (forall c, isSpace (toLowerChar c) = isSpace c /\
             isWord (toLowerChar c) = isWord c) /\
  (includes (toLowerCase pageText) (trim (toLowerCase searchText)) = true ->
   forall c, In c (trim (toLowerCase searchText)) ->
     In c (toLowerCase pageText)) /\
  scoreOf (toLowerCase searchText) pageText = scoreOf searchText pageText /\
  scoreOf (trim searchText) pageText = scoreOf searchText pageText /\
  scoreOf searchText (toLowerCase pageText) = scoreOf searchText pageText /\
  Forall (fun word => Forall (fun c => isWord c = true /\ toLowerChar c = c) word)
    (meaningfulWordsOf (cleanSearchOf searchText)).
Proof.
  split; [unfold scoreOf; rewrite pageScore_count; reflexivity|].
  split; [apply trim_spaces|].
  split; [unfold trim; apply trimEnd_keeps_start; apply trimStart_idem|].
  split; [unfold trim; apply trimEnd_idem|].
  split; [reflexivity|]. split; [reflexivity|].
  split; [intros c; split; [apply isSpace_toLowerChar | apply isWord_toLowerChar]|].
  split.
  { intros Hin c Hc. apply includes_spec in Hin.
    destruct Hin as [a [b ->]]. apply in_or_app. right. apply in_or_app. left.
    exact Hc. }
  unfold scoreOf. repeat split.
  - rewrite cleanSearchOf_toLowerCase. reflexivity.
  - rewrite cleanSearchOf_trim. reflexivity.
  - rewrite toLowerCase_idem. reflexivity.
  - apply meaningfulWordsOf_lower_words.
Qed.

(** The comma of the segment has to be on a page that gets the 100. *)
Lemma scoring_normalization_witness :
  In ","%char (toLowerCase (str "Hello, World!")).
Proof.
  destruct (scoring_normalization (str "  Hello, world ") (str "Hello, World!"))
    as [_ [_ [_ [_ [_ [_ [_ [H _]]]]]]]].
  apply H; [vm_compute; reflexivity|].
  vm_compute. right. right. right. right. right. left. reflexivity.
Defined.

(** C2 as stated fails: the comma of the segment "hello, world" is kept in
    the substring test, so the page "Hello world" gets 20 for the two words
    and not the 100 of a match of the normalized strings. *)
Lemma scoring_normalization_counterexample :
  scoreOf (str "hello, world") (str "Hello world") = 20 /\
  Spec.scoreNormalized (str "hello, world") (str "Hello world") = 120 /\
  ~ (forall searchText pageText,
       scoreOf searchText pageText = Spec.scoreNormalized searchText pageText).
Proof.
  assert (H1 : scoreOf (str "hello, world") (str "Hello world") = 20)
    by (vm_compute; reflexivity).
  assert (H2 : Spec.scoreNormalized (str "hello, world") (str "Hello world") = 120)
    by (vm_compute; reflexivity).
  repeat split; try assumption.
  intros H. specialize (H (str "hello, world") (str "Hello world")).
  rewrite H1, H2 in H. discriminate.
Qed.

(** ** The routine reads and does not write *)

Lemma forPages_run (pages : gmap nat jsstring) cleanSearch words (g : Globals)
    (pageNums : list nat) :
  g.(pageTextContent) = Some pages ->
  forall bm,
    Stateful.forPages pageNums
      (fun bestMatch pageNum =>
         Stateful.bind (Stateful.readGlobal pageTextContent)
           (fun pages =>
              match pages with
              | Some pages =>
                  Stateful.ret (visitPage pages cleanSearch words bestMatch pageNum)
              | None => Stateful.ret bestMatch
              end)) bm g
    = (fold_left (visitPage pages cleanSearch words) pageNums bm, g).
Proof.
  intros Hp. induction pageNums as [|q rest IH]; intros bm; [reflexivity|].
  cbn [Stateful.forPages fold_left].
  unfold Stateful.bind at 1. unfold Stateful.bind at 1.
  unfold Stateful.readGlobal at 1. rewrite Hp. unfold Stateful.ret at 1.
  apply IH.
Qed.

(** Run on any values of the globals, the routine gives the page computed
    from the segment, [pageTextContent] and [totalPages], and leaves the
    globals as they were. *)
Lemma findPageForText_run (searchText : option jsstring) (g : Globals) :
  Stateful.findPageForText searchText g
  = (findPageForText searchText g.(pageTextContent) g.(totalPages), g).
Proof.
  unfold Stateful.findPageForText, findPageForText.
  destruct searchText as [[|c s]|]; try reflexivity.
  unfold Stateful.bind at 1. unfold Stateful.readGlobal at 1.
  destruct (pageTextContent g) as [pages|] eqn:Hp; try reflexivity.
  destruct (length (meaningfulWordsOf (cleanSearchOf (c :: s))) =? 0);
    [reflexivity|].
  unfold Stateful.bind at 1. unfold Stateful.readGlobal at 1.
  unfold Stateful.bind at 1. rewrite (forPages_run pages _ _ g _ Hp).
  reflexivity.
Qed.

(** C8: the routine leaves every global variable as it found it, and its
    result is the same in two runs that agree on the segment, on
    [pageTextContent] and on [totalPages], whatever the other variables
    hold. *)
Theorem findPageForText_pure (searchText : option jsstring) (g g' : Globals) :
  g.(pageTextContent) = g'.(pageTextContent) ->
  g.(totalPages) = g'.(totalPages) ->
  snd (Stateful.findPageForText searchText g) = g /\
  snd (Stateful.findPageForText searchText g') = g' /\
  fst (Stateful.findPageForText searchText g)
  = fst (Stateful.findPageForText searchText g').
Proof.
  intros Hp Ht. repeat rewrite findPageForText_run. simpl.
  rewrite Hp, Ht. repeat split.
Qed.

Lemma findPageForText_pure_witness :
  snd (Stateful.findPageForText (Some Sample.cellSegment) Sample.readyGlobals)
  = Sample.readyGlobals /\
  snd (Stateful.findPageForText (Some Sample.cellSegment) Sample.busyGlobals)
  = Sample.busyGlobals /\
  fst (Stateful.findPageForText (Some Sample.cellSegment) Sample.readyGlobals)
  = fst (Stateful.findPageForText (Some Sample.cellSegment) Sample.busyGlobals).
Proof.
  apply (findPageForText_pure (Some Sample.cellSegment)
           Sample.readyGlobals Sample.busyGlobals); reflexivity.
Defined.

(** ** Rendering of list items *)

Lemma formatSentence_list_item pages total sentence :
  trim sentence <> [] -> isListItem (trim sentence) = true ->
  formatSentence pages total sentence
  = [ListItem (stripMarker (trim sentence))
       (findPageForText (Some (stripMarker (trim sentence))) pages total)].
Proof.
  intros Hne Hitem. unfold formatSentence.
  destruct (trim sentence) as [|c t]; [congruence|].
  rewrite Hitem. reflexivity.
Qed.

(** C5 at a list item: the answer "- I don't have information about that."
    is one sentence that starts with a hyphen; it contains the phrase, and it
    is rendered as a list item with a page reference, for every page map and
    page count.  The same statement without the hyphen is rendered as a
    paragraph without a page reference. *)
Theorem no_info_list_item_gets_page (pages : option (gmap nat jsstring))
    (total : nat) :
  includes (toLowerCase Sample.noInfoItem) noInfoPhrase = true /\
  formatAIResponse pages total Sample.noInfoItem
  = [ListItem Sample.noInfoSentence
       (findPageForText (Some Sample.noInfoSentence) pages total)] /\
  map pageRef (formatAIResponse pages total Sample.noInfoItem)
  = [Some (findPageForText (Some Sample.noInfoSentence) pages total)] /\
  formatAIResponse pages total Sample.noInfoSentence
  = [Paragraph Sample.noInfoSentence].
Proof.
  assert (Hs : sentencesOf (trim (removeStars Sample.noInfoItem))
               = [Sample.noInfoItem]) by (vm_compute; reflexivity).
  assert (Hf : formatAIResponse pages total Sample.noInfoItem
               = [ListItem Sample.noInfoSentence
                    (findPageForText (Some Sample.noInfoSentence) pages total)]).
  { unfold formatAIResponse. rewrite Hs. cbn [flat_map]. rewrite app_nil_r.
    rewrite formatSentence_list_item.
    - reflexivity.
    - vm_compute. discriminate.
    - vm_compute. reflexivity. }
  split; [vm_compute; reflexivity|]. split; [exact Hf|].
  split; [rewrite Hf; reflexivity|]. vm_compute. reflexivity.
Qed.

(** ** Submitting a message *)

Lemma addMessage_globals sender content w :
  (addMessage sender content w).(globals) = w.(globals).
Proof. unfold addMessage. destruct (messagesContainer (dom w)); reflexivity. Qed.

Lemma addMessage_pending sender content w :
  (addMessage sender content w).(pending) = w.(pending).
Proof. unfold addMessage. destruct (messagesContainer (dom w)); reflexivity. Qed.

(** [sendMessage] either returns at once, or sets the flag and sends one
    request; it does the latter only when a document has been processed and
    the flag was not set. *)
Lemma sendMessage_cases w :
  sendMessage w = w \/
  (w.(globals).(documentProcessed) = true /\
   w.(globals).(isProcessingMessage) = false /\
   (sendMessage w).(globals).(isProcessingMessage) = true /\
   exists r, (sendMessage w).(pending) = w.(pending) ++ [r]).
Proof.
  unfold sendMessage.
  destruct (messageInput (dom w)) as [value|]; [|left; reflexivity].
  destruct (sendButton (dom w)) as [disabled|]; [|left; reflexivity].
  destruct (length (trim value) =? 0); [left; reflexivity|].
  destruct (documentProcessed (globals w)); [|left; reflexivity].
  destruct (isProcessingMessage (globals w)); [left; reflexivity|].
  right. cbn [orb negb]. repeat split.
  - unfold fetchChat, showTypingIndicator, setTyping, setInputValue, setDom.
    cbn [globals]. rewrite addMessage_globals. reflexivity.
  - eexists. unfold fetchChat, showTypingIndicator, setTyping, setInputValue, setDom.
    cbn [pending]. rewrite addMessage_pending. reflexivity.
Qed.

Lemma sendMessage_no_document w :
  w.(globals).(documentProcessed) = false -> sendMessage w = w.
Proof.
  intros H. destruct (sendMessage_cases w) as [E | [E _]]; [exact E | congruence].
Qed.

Lemma sendMessage_busy w :
  w.(globals).(isProcessingMessage) = true -> sendMessage w = w.
Proof.
  intros H. destruct (sendMessage_cases w) as [E | [_ [E _]]]; [exact E | congruence].
Qed.

(** C7: while no document has been processed, [sendMessage] returns the page
    and the script as they were, with no request sent; so do a click on the
    button and the Enter key, and a suggested question sends no request
    either. *)
Theorem no_request_before_document (w : World) (question : jsstring) :
  w.(globals).(documentProcessed) = false ->
  sendMessage w = w /\
  step w ClickSend = w /\
  step w PressEnter = w /\
  (step w (AskSuggested question)).(pending) = w.(pending).
Proof.
  intros H. pose proof (sendMessage_no_document w H) as E.
  repeat split; try exact E.
  - simpl. rewrite E. destruct (isProcessingMessage (globals w)); reflexivity.
  - simpl. unfold askSuggestedQuestion.
    destruct (isProcessingMessage (globals w)); [reflexivity|].
    destruct (messageInput (dom w)) as [value|]; [|reflexivity].
    rewrite sendMessage_no_document; [reflexivity | exact H].
Qed.

Lemma no_request_before_document_witness :
  sendMessage (initialWorld Sample.chatDom) = initialWorld Sample.chatDom /\
  step (initialWorld Sample.chatDom) ClickSend = initialWorld Sample.chatDom /\
  step (initialWorld Sample.chatDom) PressEnter = initialWorld Sample.chatDom /\
  (step (initialWorld Sample.chatDom) (AskSuggested Sample.cellSegment)).(pending)
  = (initialWorld Sample.chatDom).(pending).
Proof.
  apply (no_request_before_document (initialWorld Sample.chatDom) Sample.cellSegment).
  reflexivity.
Defined.

(** ** One message at a time *)

Lemma resumeSendMessage_globals o w :
  (resumeSendMessage o w).(globals).(isProcessingMessage) = false.
Proof. reflexivity. Qed.

Lemma onChatError_pending w : (onChatError w).(pending) = w.(pending).
Proof. unfold onChatError. rewrite addMessage_pending. reflexivity. Qed.

Lemma resumeSendMessage_pending o w :
  (resumeSendMessage o w).(pending) = w.(pending).
Proof.
  unfold resumeSendMessage, onChatFinally. cbn [setSendDisabled setDom pending
    setIsProcessingMessage setGlobals].
  destruct o as [|result]; [apply onChatError_pending|].
  destruct (success result).
  - destruct (answer result); [|rewrite onChatError_pending; reflexivity].
    rewrite addMessage_pending. reflexivity.
  - rewrite addMessage_pending. reflexivity.
Qed.

Lemma sendMessage_inFlight w :
  inFlightMatchesFlag w -> inFlightMatchesFlag (sendMessage w).
Proof.
  intros Inv. destruct (sendMessage_cases w) as [-> | [_ [Hidle [Hbusy [r Hr]]]]];
    [exact Inv|].
  unfold inFlightMatchesFlag in *. rewrite Hbusy, Hr, length_app, Inv, Hidle.
  reflexivity.
Qed.

Lemma step_inFlight w e : inFlightMatchesFlag w -> inFlightMatchesFlag (step w e).
Proof.
  intros Inv. destruct e as [| |question|value|pages numPages|o]; simpl.
  - apply sendMessage_inFlight. exact Inv.
  - destruct (isProcessingMessage (globals w)) eqn:E; [exact Inv|].
    apply sendMessage_inFlight. exact Inv.
  - unfold askSuggestedQuestion.
    destruct (isProcessingMessage (globals w)) eqn:E; [exact Inv|].
    destruct (messageInput (dom w)); [|exact Inv].
    apply sendMessage_inFlight. exact Inv.
  - exact Inv.
  - exact Inv.
  - destruct (pending w) as [|r rest] eqn:Ep; [exact Inv|].
    unfold inFlightMatchesFlag in *.
    rewrite resumeSendMessage_globals, resumeSendMessage_pending. cbn [pending].
    rewrite Ep in Inv. simpl in Inv.
    destruct (isProcessingMessage (globals w)); simpl in *; lia.
Qed.

Lemma run_inFlight d events : inFlightMatchesFlag (run d events).
Proof.
  unfold run. assert (Inv : inFlightMatchesFlag (initialWorld d)) by reflexivity.
  revert Inv. generalize (initialWorld d).
  induction events as [|e events IH]; intros w Inv; [exact Inv|].
  simpl. apply IH. apply step_inFlight. exact Inv.
Qed.

(** C10: while the flag is set, [sendMessage], the Enter key and a suggested
    question change nothing and send nothing; however the request ends (an
    answer, an error reported by the server, an answer without text, a
    rejected request), [sendMessage] leaves the flag cleared; and after any
    sequence of events from the loading of the page at most one request is on
    its way, none when the flag is cleared. *)
Theorem one_message_in_flight (w : World) (question : jsstring) (o : Outcome)
    (d : Dom) (events : list Event) :
  (w.(globals).(isProcessingMessage) = true ->
   sendMessage w = w /\ step w PressEnter = w /\
   askSuggestedQuestion question w = w) /\
  (resumeSendMessage o w).(globals).(isProcessingMessage) = false /\
  length (run d events).(pending) <= 1 /\
  ((run d events).(globals).(isProcessingMessage) = false ->
   (run d events).(pending) = []) /\
  (step (run d events) (Settle o)).(globals).(isProcessingMessage) = false /\
  (step (run d events) (Settle o)).(pending) = [].
Proof.
  pose proof (run_inFlight d events) as Inv.
  pose proof (step_inFlight _ (Settle o) Inv) as Inv'.
  unfold inFlightMatchesFlag in Inv, Inv'.
  assert (Hclear :
    (step (run d events) (Settle o)).(globals).(isProcessingMessage) = false).
  { simpl. destruct (pending (run d events)) eqn:Ep; [|reflexivity].
    simpl in Inv.
    destruct (isProcessingMessage (globals (run d events))); [discriminate | reflexivity]. }
  split; [intros Hbusy; repeat split|repeat split].
  - apply sendMessage_busy. exact Hbusy.
  - simpl. rewrite Hbusy. reflexivity.
  - unfold askSuggestedQuestion. rewrite Hbusy. reflexivity.
  - destruct (isProcessingMessage (globals (run d events))); lia.
  - intros E. rewrite E in Inv. apply length_zero_iff_nil. exact Inv.
  - exact Hclear.
  - rewrite Hclear in Inv'. apply length_zero_iff_nil. exact Inv'.
Qed.

Lemma one_message_in_flight_witness :
  sendMessage Sample.busyWorld = Sample.busyWorld /\
  step Sample.busyWorld PressEnter = Sample.busyWorld /\
  askSuggestedQuestion Sample.cellSegment Sample.busyWorld = Sample.busyWorld /\
  (resumeSendMessage Rejected Sample.busyWorld).(globals).(isProcessingMessage)
  = false /\
  length (run Sample.chatDom
            [DocumentReady Sample.cellPages 3; ClickSend; ClickSend;
             AskSuggested Sample.cellSegment]).(pending) <= 1.
Proof.
  destruct (one_message_in_flight Sample.busyWorld Sample.cellSegment Rejected
              Sample.chatDom
              [DocumentReady Sample.cellPages 3; ClickSend; ClickSend;
               AskSuggested Sample.cellSegment])
    as [Hnoop [Hclear [Hone _]]].
  destruct (Hnoop eq_refl) as [H1 [H2 H3]].
  repeat split; assumption.
Defined.

(** * Further properties of the script *)

(** ** Page references of a rendered answer *)

Lemma findPageForText_range (searchText : option jsstring)
    (pages : option (gmap nat jsstring)) (total : nat) :
  1 <= findPageForText searchText pages total <= Nat.max 1 total.
Proof.
  destruct searchText as [s|]; [|simpl; lia].
  destruct pages as [pages|]; [|destruct s; simpl; lia].
  destruct (meaningfulWordsOf (cleanSearchOf s)) as [|w ws] eqn:E.
  - rewrite (findPageForText_no_words _ _ _ E). lia.
  - assert (Hw : meaningfulWordsOf (cleanSearchOf s) <> []) by (rewrite E; discriminate).
    destruct (findPageForText_best s pages total Hw) as [_ [_ Hr]].
    cbv zeta in Hr. destruct Hr as [-> | [Hin _]]; lia.
Qed.

(** The one block a sentence is rendered as. *)
Lemma formatSentence_one pages total sentence :
  trim sentence <> [] ->
  exists b, formatSentence pages total sentence = [b] /\
    (pageRef b = None <-> isPlainNoInfo sentence = true) /\
    (forall p, pageRef b = Some p -> 1 <= p <= Nat.max 1 total) /\
    occursIn (blockText b) sentence.
Proof.
  intros Hne. unfold formatSentence, isPlainNoInfo.
  pose proof (trim_occursIn sentence) as Htrim.
  destruct (trim sentence) as [|c t] eqn:E; [congruence|].
  destruct (isListItem (c :: t)) eqn:Hitem.
  - eexists. split; [reflexivity|]. cbn [pageRef blockText].
    split; [split; discriminate|].
    split; [intros p Hp;
            replace p with (findPageForText (Some (stripMarker (c :: t))) pages total)
              by congruence;
            apply findPageForText_range|].
    eapply occursIn_trans; [|exact Htrim].
    unfold stripMarker.
    destruct (isBulletChar c).
    + destruct (trimStart_suffix t) as [sp Hsp].
      exists (c :: sp), []. rewrite app_nil_r. simpl. congruence.
    + destruct (digitsThenDot false (c :: t)); [|apply occursIn_refl].
      assert (Hd : forall u, exists pre, u = pre ++ dropDigits u).
      { induction u as [|x u [pre IH]]; [exists []; reflexivity|].
        simpl. destruct (isDigit x); [|exists []; reflexivity].
        exists (x :: pre). simpl. congruence. }
      destruct (Hd (c :: t)) as [pre Hpre].
      destruct (dropDigits (c :: t)) as [|x rest].
      * simpl. exists (c :: t), []. rewrite app_nil_r. reflexivity.
      * simpl tail. destruct (trimStart_suffix rest) as [sp Hsp].
        exists (pre ++ x :: sp), []. rewrite app_nil_r, Hpre.
        rewrite <- app_assoc. simpl. congruence.
  - destruct (includes (toLowerCase (c :: t)) noInfoPhrase) eqn:Hinfo.
    + eexists. split; [reflexivity|]. cbn [pageRef blockText].
      split; [split; reflexivity|]. split; [discriminate | exact Htrim].
    + eexists. split; [reflexivity|]. cbn [pageRef blockText].
      split; [split; discriminate|].
      split; [intros p Hp;
              replace p with (findPageForText (Some (c :: t)) pages total)
                by congruence;
              apply findPageForText_range | exact Htrim].
Qed.

Lemma sentencesOf_nonblank answer sentence :
  In sentence (sentencesOf answer) -> trim sentence <> [].
Proof.
  unfold sentencesOf. rewrite filter_In. intros [_ H] E. rewrite E in H.
  discriminate.
Qed.




Lemma splitSentences_chars s : forall skipping prevStop cur piece c,
  In piece (splitSentences skipping prevStop cur s) -> In c piece ->
  In c cur \/ In c s.
Proof.
  induction s as [|x s IH]; intros skipping prevStop cur piece c Hp Hc.
  - simpl in Hp. destruct Hp as [<- | []]. left. exact Hc.
  - simpl in Hp.
    assert (Hsnoc : forall sk ps, In piece (splitSentences sk ps (cur ++ [x]) s) ->
                    In c cur \/ In c (x :: s)).
    { intros sk ps H. destruct (IH _ _ _ _ _ H Hc) as [H1 | H1].
      - apply in_app_or in H1 as [H1 | [<- | []]]; [left; exact H1 | right; left; reflexivity].
      - right. right. exact H1. }
    destruct (isSpace x).
    + destruct skipping.
      * destruct (IH _ _ _ _ _ Hp Hc) as [H1 | H1]; [left | right; right]; exact H1.
      * destruct prevStop; [|apply (Hsnoc _ _ Hp)].
        destruct Hp as [<- | Hp]; [left; exact Hc|].
        destruct (IH _ _ _ _ _ Hp Hc) as [[] | H1]. right. right. exact H1.
    + apply (Hsnoc _ _ Hp).
Qed.

Lemma occursIn_In (t s : jsstring) c : occursIn t s -> In c t -> In c s.
Proof.
  intros [a [b ->]] H. apply in_or_app. right. apply in_or_app. left. exact H.
Qed.

(** X3: no text of a rendered answer contains an asterisk. *)
Theorem no_asterisk_rendered (pages : option (gmap nat jsstring)) (total : nat)
    (answer : jsstring) :
  Forall (fun b => ~ In "*"%char (blockText b))
    (formatAIResponse pages total answer).
Proof.
  unfold formatAIResponse. apply List.Forall_forall. intros b Hb Hstar.
  apply in_flat_map in Hb as [sentence [Hs Hb]].
  destruct (formatSentence_one pages total sentence (sentencesOf_nonblank _ _ Hs))
    as [b' [E [_ [_ Hocc]]]].
  rewrite E in Hb. destruct Hb as [<- | []].
  apply (occursIn_In _ _ _ Hocc) in Hstar.
  unfold sentencesOf in Hs. apply filter_In in Hs as [Hs _].
  destruct (splitSentences_chars _ _ _ _ _ _ Hs Hstar) as [[] | Hin].
  apply (occursIn_In _ _ _ (trim_occursIn _)) in Hin.
  unfold removeStars in Hin. apply filter_In in Hin as [_ Hin].
  vm_compute in Hin. discriminate.
Qed.

(** ** What the attribution depends on *)

Lemma findPageForText_bestPage searchText pages total :
  findPageForText (Some searchText) (Some pages) total
  = bestPage (cleanSearchOf searchText) pages total.
Proof. destruct searchText; reflexivity. Qed.

Lemma fold_left_agree {A B} (f g : A -> B -> A) (l : list B) :
  (forall a x, In x l -> f a x = g a x) ->
  forall a, fold_left f l a = fold_left g l a.
Proof.
  induction l as [|x l IH]; intros H a; simpl; [reflexivity|].
  rewrite (H a x (or_introl eq_refl)). apply IH.
  intros b y Hy. apply H. right. exact Hy.
Qed.

Lemma bestPage_agree cleanSearch (pages pages' : gmap nat jsstring) total :
  (forall bm q, 1 <= q <= total ->
     visitPage pages cleanSearch (meaningfulWordsOf cleanSearch) bm q
     = visitPage pages' cleanSearch (meaningfulWordsOf cleanSearch) bm q) ->
  bestPage cleanSearch pages total = bestPage cleanSearch pages' total.
Proof.
  intros H. unfold bestPage.
  destruct (length (meaningfulWordsOf cleanSearch) =? 0); [reflexivity|].
  rewrite (fold_left_agree _
             (visitPage pages' cleanSearch (meaningfulWordsOf cleanSearch))).
  - reflexivity.
  - intros bm q Hq. apply H. apply in_seq in Hq. lia.
Qed.

Lemma visitPage_toLowerCase (pages : gmap nat jsstring) cleanSearch words bm q :
  visitPage (toLowerCase <$> pages) cleanSearch words bm q
  = visitPage pages cleanSearch words bm q.
Proof.
  unfold visitPage. rewrite lookup_fmap.
  destruct (pages !! q) as [[|c t]|]; try reflexivity.
  simpl. rewrite toLowerChar_idem, toLowerCase_idem. reflexivity.
Qed.

(** X4: the attributed page does not depend on the letter case of the
    segment or of the page texts, nor on white space around the segment. *)
Theorem attribution_ignores_case (searchText : jsstring)
    (pages : gmap nat jsstring) (total : nat) :
  findPageForText (Some (toLowerCase searchText)) (Some pages) total
  = findPageForText (Some searchText) (Some pages) total /\
  findPageForText (Some (trim searchText)) (Some pages) total
  = findPageForText (Some searchText) (Some pages) total /\
  findPageForText (Some searchText) (Some (toLowerCase <$> pages)) total
  = findPageForText (Some searchText) (Some pages) total.
Proof.
  repeat rewrite findPageForText_bestPage.
  rewrite cleanSearchOf_toLowerCase, cleanSearchOf_trim.
  repeat split. apply bestPage_agree. intros bm q _. apply visitPage_toLowerCase.
Qed.

(** X5: only the pages 1..[total] count: two page maps with the same texts on
    these pages give the same page, whatever else they hold (texts left over
    from a longer document, for instance). *)
Theorem attribution_ignores_other_pages (searchText : option jsstring)
    (pages pages' : gmap nat jsstring) (total : nat) :
  (forall q, 1 <= q <= total -> pages !! q = pages' !! q) ->
  findPageForText searchText (Some pages) total
  = findPageForText searchText (Some pages') total.
Proof.
  intros H. destruct searchText as [s|]; [|reflexivity].
  repeat rewrite findPageForText_bestPage. apply bestPage_agree.
  intros bm q Hq. unfold visitPage. rewrite (H q Hq). reflexivity.
Qed.

Lemma attribution_ignores_other_pages_witness :
  findPageForText (Some Sample.cellSegment) (Some Sample.cellPages) 2
  = findPageForText (Some Sample.cellSegment)
      (Some (<[3 := str "the mitochondria is the powerhouse."]> Sample.cellPages)) 2.
Proof.
  apply (attribution_ignores_other_pages (Some Sample.cellSegment)
           Sample.cellPages
           (<[3 := str "the mitochondria is the powerhouse."]> Sample.cellPages) 2).
  intros q Hq. rewrite lookup_insert_ne by lia. reflexivity.
Defined.

(** ** When a page scores, and which page wins *)

Lemma filter_length_le {A} (f : A -> bool) (l : list A) :
  length (List.filter f l) <= length l.
Proof. induction l as [|x l IH]; simpl; [lia|]. destruct (f x); simpl; lia. Qed.

Lemma filter_all {A} (f : A -> bool) (l : list A) :
  (forall x, In x l -> f x = true) -> List.filter f l = l.
Proof.
  induction l as [|x l IH]; intros H; [reflexivity|].
  cbn [List.filter]. rewrite (H x (or_introl eq_refl)). f_equal.
  apply IH. intros y Hy. apply H. right. exact Hy.
Qed.

Lemma filter_nil_none {A} (f : A -> bool) (l : list A) x :
  List.filter f l = [] -> In x l -> f x = false.
Proof.
  intros E Hin. destruct (f x) eqn:Ef; [|reflexivity].
  assert (H : In x (List.filter f l)) by (apply filter_In; auto).
  rewrite E in H. destruct H.
Qed.

(** X6: for a segment that has a content word, a page scores 0 exactly when
    none of the content words occurs in its lower-cased text; a match of the
    whole segment never scores alone. *)
Theorem zero_score_iff_no_word (searchText : jsstring)
    (pages : gmap nat jsstring) (q : nat) (pageText : jsstring) :
  meaningfulWordsOf (cleanSearchOf searchText) <> [] ->
  pages !! q = Some pageText ->
  (scoreOfPage searchText pages q = 0 <->
   forall word, In word (meaningfulWordsOf (cleanSearchOf searchText)) ->
     includes (toLowerCase pageText) word = false).
Proof.
  intros Hw Hq. split.
  - intros Hzero word Hin. unfold scoreOfPage in Hzero. rewrite Hq in Hzero.
    destruct pageText as [|c t].
    + apply includes_false. intros Hocc. apply occursIn_length in Hocc.
      destruct (meaningfulWordsOf_word _ _ Hin) as [_ [_ Hlen]]. simpl in Hocc. lia.
    + unfold scoreOf in Hzero. rewrite pageScore_count in Hzero.
      apply (filter_nil_none (includes (toLowerCase (c :: t)))
               (meaningfulWordsOf (cleanSearchOf searchText))); [|exact Hin].
      apply length_zero_iff_nil. lia.
  - intros Hno. apply scoreOfPage_no_word; [exact Hw|].
    intros t w Ht Hin. rewrite Hq in Ht. injection Ht as <-. apply Hno. exact Hin.
Qed.

Lemma zero_score_iff_no_word_witness :
  scoreOfPage Sample.cellSegment Sample.cellPages 1 = 0 <->
  forall word, In word (meaningfulWordsOf (cleanSearchOf Sample.cellSegment)) ->
    includes (toLowerCase (str "Photosynthesis occurs in chloroplasts.")) word
    = false.
Proof.
  apply (zero_score_iff_no_word Sample.cellSegment Sample.cellPages 1
           (str "Photosynthesis occurs in chloroplasts.")).
  - vm_compute. discriminate.
  - reflexivity.
Defined.

(** The score of a page is at most 100 plus 10 for every content word, and a
    page that contains the cleaned segment has that score. *)
Lemma scoreOf_bound searchText pageText :
  scoreOf searchText pageText
  <= (if includes (toLowerCase pageText) (cleanSearchOf searchText)
      then 100 else 0)
     + 10 * length (meaningfulWordsOf (cleanSearchOf searchText)).
Proof.
  unfold scoreOf. rewrite pageScore_count.
  pose proof (filter_length_le (includes (toLowerCase pageText))
                (meaningfulWordsOf (cleanSearchOf searchText))). lia.
Qed.

Lemma scoreOf_full searchText pageText :
  includes (toLowerCase pageText) (cleanSearchOf searchText) = true ->
  scoreOf searchText pageText
  = 100 + 10 * length (meaningfulWordsOf (cleanSearchOf searchText)).
Proof.
  intros H. unfold scoreOf. rewrite pageScore_count, H, filter_all; [reflexivity|].
  intros w Hw. apply includes_spec. apply includes_spec in H.
  destruct (meaningfulWordsOf_word _ _ Hw) as [Hocc _].
  eapply occursIn_trans; eassumption.
Qed.

(** X7: when the lower-cased, trimmed segment has a content word and occurs
    in the lower-cased text of some page of 1..[total], the routine returns
    the first such page. *)
Theorem first_page_with_segment (searchText : jsstring)
    (pages : gmap nat jsstring) (total q : nat) (pageText : jsstring) :
  meaningfulWordsOf (cleanSearchOf searchText) <> [] ->
  1 <= q <= total ->
  pages !! q = Some pageText ->
  includes (toLowerCase pageText) (cleanSearchOf searchText) = true ->
  (forall q' otherText, 1 <= q' < q -> pages !! q' = Some otherText ->
     includes (toLowerCase otherText) (cleanSearchOf searchText) = false) ->
  findPageForText (Some searchText) (Some pages) total = q.
Proof.
  intros Hw Hq Hlook Hin Hbefore.
  set (n := length (meaningfulWordsOf (cleanSearchOf searchText))).
  assert (Hn : 0 < n).
  { unfold n. destruct (meaningfulWordsOf (cleanSearchOf searchText));
      [congruence | simpl; lia]. }
  assert (Hscore : scoreOfPage searchText pages q = 100 + 10 * n).
  { unfold scoreOfPage. rewrite Hlook. destruct pageText as [|c t].
    - exfalso. apply includes_spec in Hin. apply occursIn_length in Hin.
      destruct (meaningfulWordsOf (cleanSearchOf searchText)) as [|w ws] eqn:E;
        [congruence|].
      assert (Hwin : In w (meaningfulWordsOf (cleanSearchOf searchText)))
        by (rewrite E; left; reflexivity).
      destruct (meaningfulWordsOf_word _ _ Hwin) as [Hocc [_ Hlen]].
      apply occursIn_length in Hocc. simpl in Hin. lia.
    - apply scoreOf_full. exact Hin. }
  assert (Hle : forall r, scoreOfPage searchText pages r <= 100 + 10 * n).
  { intros r. unfold scoreOfPage. destruct (pages !! r) as [[|c t]|]; try lia.
    pose proof (scoreOf_bound searchText (c :: t)) as B. fold n in B.
    destruct (includes _ _) in B; lia. }
  assert (Hlow : forall r, 1 <= r < q -> scoreOfPage searchText pages r < 100 + 10 * n).
  { intros r Hr. unfold scoreOfPage.
    destruct (pages !! r) as [[|c t]|] eqn:Er; try lia.
    pose proof (scoreOf_bound searchText (c :: t)) as B. fold n in B.
    rewrite (Hbefore r (c :: t) Hr Er) in B. lia. }
  destruct (findPageForText_best searchText pages total Hw) as [Hmax [Hfirst Hr]].
  cbv zeta in *. set (r := findPageForText _ _ _) in *.
  pose proof (Hmax q Hq) as M. pose proof (Hle r) as L.
  assert (Heq : scoreOfPage searchText pages q = scoreOfPage searchText pages r) by lia.
  pose proof (Hfirst q Hq Heq) as Hrq.
  destruct (Nat.eq_dec r q) as [|Hne]; [assumption|].
  assert (Hr1 : 1 <= r) by (destruct Hr as [-> | [? _]]; lia).
  specialize (Hlow r). lia.
Qed.

Lemma first_page_with_segment_witness :
  findPageForText (Some Sample.cellSegment) (Some Sample.cellPages) 3 = 3.
Proof.
  apply (first_page_with_segment Sample.cellSegment Sample.cellPages 3 3
           (str "Again: the mitochondria is the powerhouse.")).
  - vm_compute. discriminate.
  - lia.
  - reflexivity.
  - vm_compute. reflexivity.
  - intros q' otherText Hq' Hlook.
    assert (Hc : q' = 1 \/ q' = 2) by lia.
    destruct Hc as [-> | ->]; vm_compute in Hlook; injection Hlook as <-;
      vm_compute; reflexivity.
Defined.

(** ** What is sent, and what is answered *)

Lemma addMessage_container sender content w :
  messagesContainer (dom (addMessage sender content w))
  = (fun messages => messages ++ [(sender, content)])
      <$> messagesContainer (dom w).
Proof.
  unfold addMessage. destruct (messagesContainer (dom w)) eqn:E; simpl;
    rewrite ?E; reflexivity.
Qed.

(** What [sendMessage] does when it does not return at once. *)
Lemma sendMessage_sent w :
  sendMessage w = w \/
  exists value,
    messageInput (dom w) = Some value /\ trim value <> [] /\
    pending (sendMessage w)
    = pending w ++ [{| message := trim value; pdf_only := true |}] /\
    messagesContainer (dom (sendMessage w))
    = (fun messages => messages ++ [(User, Text (trim value))])
        <$> messagesContainer (dom w).
Proof.
  unfold sendMessage.
  destruct (messageInput (dom w)) as [value|]; [|left; reflexivity].
  destruct (sendButton (dom w)) as [disabled|]; [|left; reflexivity].
  destruct (length (trim value) =? 0) eqn:Elen; [left; reflexivity|].
  destruct (documentProcessed (globals w)); [|left; reflexivity].
  destruct (isProcessingMessage (globals w)); [left; reflexivity|].
  right. exists value. cbn [orb negb]. split; [reflexivity|]. split.
  { intros E. rewrite E in Elen. discriminate. }
  unfold fetchChat, showTypingIndicator, setTyping, setInputValue, setDom.
  cbn [pending dom messagesContainer].
  rewrite addMessage_pending, addMessage_container. split; reflexivity.
Qed.

Lemma step_pending w e r :
  In r (pending (step w e)) ->
  In r (pending w) \/ wellFormedRequest r.
Proof.
  assert (Hsend : forall w', In r (pending (sendMessage w')) ->
                  In r (pending w') \/ wellFormedRequest r).
  { intros w' Hin. destruct (sendMessage_sent w') as [E | [value [_ [Hne [Hp _]]]]].
    - rewrite E in Hin. left. exact Hin.
    - rewrite Hp in Hin. apply in_app_or in Hin as [Hin | [<- | []]];
        [left; exact Hin | right].
      repeat split; [exact Hne | apply trim_idem]. }
  destruct e as [| |question|value|pages numPages|o]; simpl; intros Hin.
  - apply Hsend. exact Hin.
  - destruct (isProcessingMessage (globals w)); [left; exact Hin | apply Hsend; exact Hin].
  - unfold askSuggestedQuestion in Hin.
    destruct (isProcessingMessage (globals w)); [left; exact Hin|].
    destruct (messageInput (dom w)); [|left; exact Hin].
    apply Hsend in Hin. exact Hin.
  - left. exact Hin.
  - left. exact Hin.
  - revert Hin. destruct (pending w) as [|r0 rest] eqn:Ep.
    + rewrite Ep. intros [].
    + rewrite resumeSendMessage_pending. intros Hin. left. right. exact Hin.
Qed.

Lemma overview_pending hour o w :
  pending (Overview.resumeGenerateInitialOverview hour o w) = pending w.
Proof.
  unfold Overview.resumeGenerateInitialOverview, Overview.onOverviewError.
  destruct o as [|result]; [rewrite addMessage_pending; reflexivity|].
  destruct (Overview.success result); [|rewrite addMessage_pending; reflexivity].
  destruct (Overview.summary result); rewrite addMessage_pending; reflexivity.
Qed.

(** X8: every request to [/chat] that is on its way, after any sequence of
    events from the loading of the page, carries a non-empty text without
    white space around it and has [pdf_only] set: an empty or blank question
    is never sent. *)
Theorem requests_well_formed (d : Dom) (events : list PageEvent) :
  Forall wellFormedRequest (pending (pageRun d events)).
Proof.
  unfold pageRun.
  assert (Hinit : Forall wellFormedRequest (pending (initialWorld d))) by constructor.
  revert Hinit. generalize (initialWorld d).
  induction events as [|e events IH]; intros w Hw; [exact Hw|].
  simpl. apply IH. rewrite List.Forall_forall in *. intros r Hr.
  destruct e as [e| |hour o]; simpl in Hr.
  - destruct (step_pending _ _ _ Hr) as [Hin | Hwf]; [apply Hw; exact Hin | exact Hwf].
  - apply Hw. exact Hr.
  - rewrite overview_pending in Hr. apply Hw. exact Hr.
Qed.

Lemma resumeSendMessage_container o w :
  exists content,
    messagesContainer (dom (resumeSendMessage o w))
    = (fun messages => messages ++ [(Ai, content)]) <$> messagesContainer (dom w).
Proof.
  unfold resumeSendMessage, onChatFinally, onChatError.
  cbn [setSendDisabled setDom dom messagesContainer setIsProcessingMessage setGlobals].
  destruct o as [|result].
  - eexists. rewrite addMessage_container. reflexivity.
  - destruct (success result).
    + destruct (answer result); eexists; rewrite addMessage_container; reflexivity.
    + eexists. rewrite addMessage_container. reflexivity.
Qed.

Lemma overview_container hour o w :
  exists content,
    messagesContainer (dom (Overview.resumeGenerateInitialOverview hour o w))
    = (fun messages => messages ++ [(Ai, content)]) <$> messagesContainer (dom w).
Proof.
  unfold Overview.resumeGenerateInitialOverview, Overview.onOverviewError.
  destruct o as [|result].
  - eexists. rewrite addMessage_container. reflexivity.
  - destruct (Overview.success result).
    + destruct (Overview.summary result); eexists; rewrite addMessage_container;
        reflexivity.
    + eexists. rewrite addMessage_container. reflexivity.
Qed.

Lemma countFrom_snoc sender messages m :
  countFrom sender (messages ++ [m])
  = countFrom sender messages + (if isFrom sender m then 1 else 0).
Proof.
  unfold countFrom. rewrite List.filter_app, length_app. simpl.
  destruct (isFrom sender m); reflexivity.
Qed.

Lemma sendMessage_balanced before shown w :
  balanced before shown w -> balanced before shown (sendMessage w).
Proof.
  intros [added [Hc Hb]].
  destruct (sendMessage_sent w) as [-> | [value [_ [_ [Hp Hm]]]]];
    [exists added; auto|].
  exists (added ++ [(User, Text (trim value))]).
  rewrite Hm, Hc, Hp, length_app, !countFrom_snoc, app_assoc. simpl.
  split; [reflexivity | lia].
Qed.

Lemma pageStep_balanced before shown w e :
  balanced before shown w ->
  balanced before (shown + (if isOverviewSettled e then 1 else 0)) (pageStep w e).
Proof.
  intros Hb. destruct e as [e| |hour o]; simpl; rewrite ?Nat.add_0_r.
  - destruct e as [| |question|value|pages numPages|o]; simpl.
    + apply sendMessage_balanced. exact Hb.
    + destruct (isProcessingMessage (globals w)); [exact Hb|].
      apply sendMessage_balanced. exact Hb.
    + unfold askSuggestedQuestion.
      destruct (isProcessingMessage (globals w)); [exact Hb|].
      destruct (messageInput (dom w)); [|exact Hb].
      apply sendMessage_balanced. exact Hb.
    + exact Hb.
    + exact Hb.
    + destruct (pending w) as [|r rest] eqn:Ep; [exact Hb|].
      destruct Hb as [added [Hc Hbal]].
      destruct (resumeSendMessage_container o
                  {| globals := globals w; dom := dom w; pending := rest |})
        as [content Hm].
      exists (added ++ [(Ai, content)]).
      rewrite Hm, resumeSendMessage_pending. cbn [dom pending].
      rewrite Hc, !countFrom_snoc, app_assoc. rewrite Ep in Hbal. simpl in *.
      split; [reflexivity | lia].
  - exact Hb.
  - destruct Hb as [added [Hc Hbal]].
    destruct (overview_container hour o w) as [content Hm].
    exists (added ++ [(Ai, content)]).
    rewrite Hm, overview_pending, Hc, !countFrom_snoc, app_assoc. simpl.
    split; [reflexivity | lia].
Qed.

(** X9: when the page has a message container, the chat is only added to,
    and every question gets one reply: after any sequence of events the
    questions added, plus the overviews shown, are as many as the replies
    added plus the requests still on their way. *)
Theorem one_reply_per_question (d : Dom) (before : list (Sender * Content))
    (events : list PageEvent) :
  messagesContainer d = Some before ->
  exists added,
    messagesContainer (dom (pageRun d events)) = Some (before ++ added) /\
    countFrom User added + length (List.filter isOverviewSettled events)
    = countFrom Ai added + length (pending (pageRun d events)).
Proof.
  intros Hd. unfold pageRun.
  assert (Hinit : balanced before 0 (initialWorld d)).
  { exists []. rewrite app_nil_r. split; [exact Hd | reflexivity]. }
  change (balanced before (0 + length (List.filter isOverviewSettled events))
            (fold_left pageStep events (initialWorld d))).
  revert Hinit. generalize (initialWorld d). generalize 0.
  induction events as [|e events IH]; intros shown w Hb.
  - simpl. rewrite Nat.add_0_r. exact Hb.
  - simpl fold_left. apply (pageStep_balanced _ _ _ e) in Hb.
    apply IH in Hb. cbn [List.filter].
    destruct (isOverviewSettled e); simpl length in *;
      [replace (shown + S (length (List.filter isOverviewSettled events)))
         with (shown + 1 + length (List.filter isOverviewSettled events)) by lia
      |rewrite Nat.add_0_r in Hb]; exact Hb.
Qed.

Lemma one_reply_per_question_witness :
  exists added,
    messagesContainer
      (dom (pageRun Sample.chatDom
              [ChatEvent (DocumentReady Sample.cellPages 3); OverviewRequested;
               ChatEvent ClickSend; OverviewSettled 9 Overview.Rejected;
               ChatEvent (Settle Rejected)]))
    = Some ([] ++ added) /\
    countFrom User added
    + length (List.filter isOverviewSettled
                [ChatEvent (DocumentReady Sample.cellPages 3); OverviewRequested;
                 ChatEvent ClickSend; OverviewSettled 9 Overview.Rejected;
                 ChatEvent (Settle Rejected)])
    = countFrom Ai added
      + length (pending
                  (pageRun Sample.chatDom
                     [ChatEvent (DocumentReady Sample.cellPages 3);
                      OverviewRequested; ChatEvent ClickSend;
                      OverviewSettled 9 Overview.Rejected;
                      ChatEvent (Settle Rejected)])).
Proof.
  apply (one_reply_per_question Sample.chatDom []). reflexivity.
Defined.

(** ** The text of an extracted page *)

Lemma collapseSpaces_cons c s :
  collapseSpaces (c :: s)
  = if isSpace c then
      match s with
      | c' :: _ => if isSpace c' then collapseSpaces s
                   else " "%char :: collapseSpaces s
      | [] => [" "%char]
      end
    else c :: collapseSpaces s.
Proof. reflexivity. Qed.

Lemma collapseSpaces_head c s :
  isSpace c = false -> collapseSpaces (c :: s) = c :: collapseSpaces s.
Proof. intros H. rewrite collapseSpaces_cons, H. reflexivity. Qed.

Lemma singleSpaced_cons c s :
  singleSpaced (c :: s)
  = (if isSpace c
     then ascii_eqb c " "%char &&
          match s with
          | c' :: _ => negb (isSpace c')
          | [] => true
          end
     else true) && singleSpaced s.
Proof. reflexivity. Qed.

Lemma collapseSpaces_singleSpaced s : singleSpaced (collapseSpaces s) = true.
Proof.
  induction s as [|c s IH]; [reflexivity|].
  rewrite collapseSpaces_cons. destruct (isSpace c) eqn:Ec.
  - destruct s as [|c' s']; [reflexivity|].
    destruct (isSpace c') eqn:Ec'; [exact IH|].
    rewrite singleSpaced_cons, IH.
    rewrite (collapseSpaces_head _ _ Ec'), Ec'. reflexivity.
  - rewrite singleSpaced_cons, Ec, IH. reflexivity.
Qed.

Lemma singleSpaced_app a b :
  singleSpaced (a ++ b) = true -> singleSpaced a = true /\ singleSpaced b = true.
Proof.
  induction a as [|c a IH]; intros H; [split; [reflexivity | exact H]|].
  simpl app in H. rewrite singleSpaced_cons in H.
  apply andb_true_iff in H as [Hc H]. destruct (IH H) as [Ha Hb].
  split; [|exact Hb]. rewrite singleSpaced_cons, Ha, andb_true_r.
  destruct (isSpace c); [|reflexivity].
  apply andb_true_iff in Hc as [Hc1 Hc2]. rewrite Hc1. simpl.
  destruct a as [|c' a']; [reflexivity|]. exact Hc2.
Qed.

Lemma singleSpaced_occursIn t s :
  occursIn t s -> singleSpaced s = true -> singleSpaced t = true.
Proof.
  intros [a [b ->]] H. apply singleSpaced_app in H as [_ H].
  apply singleSpaced_app in H as [H _]. exact H.
Qed.

Lemma isSpace_lower_fixed c : isSpace c = true -> toLowerChar c = c.
Proof. each_code_unit c. Qed.

Lemma singleSpaced_toLowerCase s : singleSpaced (toLowerCase s) = singleSpaced s.
Proof.
  induction s as [|c s IH]; [reflexivity|].
  change (toLowerCase (c :: s)) with (toLowerChar c :: toLowerCase s).
  rewrite !singleSpaced_cons, IH, isSpace_toLowerChar.
  destruct (isSpace c) eqn:Ec; [|reflexivity].
  rewrite (isSpace_lower_fixed _ Ec).
  destruct s as [|c' s']; [reflexivity|].
  change (toLowerCase (c' :: s')) with (toLowerChar c' :: toLowerCase s').
  cbv iota. rewrite isSpace_toLowerChar. reflexivity.
Qed.

Lemma pageTextOf_singleSpaced items : singleSpaced (pageTextOf items) = true.
Proof.
  unfold pageTextOf. eapply singleSpaced_occursIn.
  - apply trim_occursIn.
  - apply collapseSpaces_singleSpaced.
Qed.

(** X10: the text stored for a page has no white space at its start or end,
    and all its white space is single plain spaces, whatever the text items
    of the page hold. *)
Theorem page_text_normalized (items : list jsstring) :
  trimStart (pageTextOf items) = pageTextOf items /\
  trimEnd (pageTextOf items) = pageTextOf items /\
  singleSpaced (pageTextOf items) = true.
Proof.
  unfold pageTextOf at 1 2 3 4. repeat split.
  - unfold trim. apply trimEnd_keeps_start. apply trimStart_idem.
  - unfold trim. apply trimEnd_idem.
  - apply pageTextOf_singleSpaced.
Qed.

(** X11: a segment whose lower-cased, trimmed form has a tab, a line break,
    a no-break space or two spaces in a row never gets the 100 of a full
    match on an extracted page; its score there is 10 for each content word
    found. *)
Theorem broken_spacing_never_matches (searchText : jsstring)
    (items : list jsstring) :
  singleSpaced (cleanSearchOf searchText) = false ->
  includes (toLowerCase (pageTextOf items)) (cleanSearchOf searchText) = false /\
  scoreOf searchText (pageTextOf items)
  = 10 * length (List.filter (includes (toLowerCase (pageTextOf items)))
                   (meaningfulWordsOf (cleanSearchOf searchText))).
Proof.
  intros Hs.
  assert (H : includes (toLowerCase (pageTextOf items)) (cleanSearchOf searchText)
              = false).
  { apply includes_false. intros Hocc.
    apply singleSpaced_occursIn in Hocc; [congruence|].
    rewrite singleSpaced_toLowerCase. apply pageTextOf_singleSpaced. }
  split; [exact H|]. unfold scoreOf. rewrite pageScore_count, H. reflexivity.
Qed.

Lemma broken_spacing_never_matches_witness :
  includes
    (toLowerCase (pageTextOf [str "The mitochondria is"; str "the powerhouse."]))
    (cleanSearchOf (str "mitochondria is  the powerhouse")) = false /\
  scoreOf (str "mitochondria is  the powerhouse")
    (pageTextOf [str "The mitochondria is"; str "the powerhouse."])
  = 10 * length
           (List.filter
              (includes
                 (toLowerCase
                    (pageTextOf [str "The mitochondria is"; str "the powerhouse."])))
              (meaningfulWordsOf
                 (cleanSearchOf (str "mitochondria is  the powerhouse")))).
Proof.
  apply (broken_spacing_never_matches (str "mitochondria is  the powerhouse")
           [str "The mitochondria is"; str "the powerhouse."]).
  vm_compute. reflexivity.
Defined.

(** ** The pages an extraction stores *)

Lemma extractPagesFrom_lookup pdfPages : forall pageNum store k,
  extractPagesFrom pageNum pdfPages store !! k
  = if (pageNum <=? k) && (k <? pageNum + length (readablePages pdfPages))
    then pageTextOf <$> (readablePages pdfPages !! (k - pageNum))
    else store !! k.
Proof.
  induction pdfPages as [|[items|] rest IH]; intros pageNum store k.
  - simpl. rewrite Nat.add_0_r.
    destruct (Nat.leb_spec pageNum k), (Nat.ltb_spec k pageNum); simpl;
      try reflexivity; lia.
  - simpl extractPagesFrom. simpl readablePages. rewrite IH. simpl length.
    destruct (Nat.leb_spec (S pageNum) k) as [H1|H1];
      destruct (Nat.ltb_spec k (S pageNum + length (readablePages rest))) as [H2|H2];
      destruct (Nat.leb_spec pageNum k) as [H3|H3];
      destruct (Nat.ltb_spec k (pageNum + S (length (readablePages rest)))) as [H4|H4];
      simpl; try lia.
    + replace (k - pageNum) with (S (k - S pageNum)) by lia. reflexivity.
    + rewrite lookup_insert_ne by lia. reflexivity.
    + assert (k = pageNum) as -> by lia.
      rewrite lookup_insert_eq, Nat.sub_diag. reflexivity.
    + rewrite lookup_insert_ne by lia. reflexivity.
  - simpl. rewrite Nat.add_0_r.
    destruct (Nat.leb_spec pageNum k), (Nat.ltb_spec k pageNum); simpl;
      try reflexivity; lia.
Qed.

(** X12: an extraction stores the text of every page it reads before the
    first rejected one under the number of the page, and changes nothing
    else: the texts of a document extracted before stay under the page
    numbers that the new document does not reach, and a file that cannot be
    opened changes nothing. *)
Theorem extraction_stores_read_pages
    (pdfPages : list (option (list jsstring))) (store : gmap nat jsstring) :
  (forall k items, readablePages pdfPages !! k = Some items ->
     extractFullPdfText (Some pdfPages) store !! (S k) = Some (pageTextOf items)) /\
  (forall k, k = 0 \/ length (readablePages pdfPages) < k ->
     extractFullPdfText (Some pdfPages) store !! k = store !! k) /\
  extractFullPdfText None store = store.
Proof.
  split; [|split; [|reflexivity]].
  - intros k items Hk. unfold extractFullPdfText.
    rewrite extractPagesFrom_lookup.
    pose proof (lookup_lt_Some _ _ _ Hk) as Hlt.
    destruct (Nat.leb_spec 1 (S k)); [|lia].
    destruct (Nat.ltb_spec (S k) (1 + length (readablePages pdfPages))); [|lia].
    simpl. rewrite Nat.sub_0_r, Hk. reflexivity.
  - intros k Hk. unfold extractFullPdfText. rewrite extractPagesFrom_lookup.
    destruct (Nat.leb_spec 1 k); [|reflexivity].
    destruct (Nat.ltb_spec k (1 + length (readablePages pdfPages)));
      [lia | reflexivity].
Qed.

Lemma extraction_stores_read_pages_witness :
  extractFullPdfText
    (Some [Some [str "New"; str "first page"]; None; Some [str "unread"]])
    Sample.cellPages !! 1 = Some (pageTextOf [str "New"; str "first page"]) /\
  extractFullPdfText
    (Some [Some [str "New"; str "first page"]; None; Some [str "unread"]])
    Sample.cellPages !! 3 = Sample.cellPages !! 3.
Proof.
  destruct (extraction_stores_read_pages
              [Some [str "New"; str "first page"]; None; Some [str "unread"]]
              Sample.cellPages) as [Hread [Hkept _]].
  split.
  - apply (Hread 0). reflexivity.
  - apply (Hkept 3). right. simpl. lia.
Defined.

(** ** Moving through the document *)

Lemma without_Forall {A} (P : A -> Prop) i (l : list A) :
  Forall P l -> Forall P (Viewer.without i l).
Proof.
  intros H. unfold Viewer.without. apply Forall_app. split.
  - apply Forall_take. exact H.
  - apply Forall_drop. exact H.
Qed.

Lemma renderPage_cases pageNum v :
  Viewer.renderPage pageNum v = v \/
  (1 <= pageNum <= Viewer.totalPages v /\ Viewer.pdfDocument v = true /\
   Viewer.renderPage pageNum v
   = {| Viewer.pdfDocument := Viewer.pdfDocument v;
        Viewer.currentPage := Viewer.currentPage v;
        Viewer.totalPages := Viewer.totalPages v;
        Viewer.pdfContent := Some [];
        Viewer.pageInfo := Viewer.pageInfo v;
        Viewer.prevPage := Viewer.prevPage v;
        Viewer.nextPage := Viewer.nextPage v;
        Viewer.rendering := Viewer.rendering v ++ [pageNum] |}).
Proof.
  unfold Viewer.renderPage.
  destruct (Viewer.pdfDocument v) eqn:Ed; [|left; reflexivity].
  destruct (Nat.ltb_spec pageNum 1); [left; reflexivity|].
  destruct (Nat.ltb_spec (Viewer.totalPages v) pageNum); [left; reflexivity|].
  simpl. destruct (Viewer.pdfContent v); [|left; reflexivity].
  right. repeat split; try lia.
Qed.

Lemma renderPage_inDocument n pageNum v :
  Viewer.inDocument n v -> Viewer.inDocument n (Viewer.renderPage pageNum v).
Proof.
  intros Hv. destruct (renderPage_cases pageNum v) as [-> | [Hp [_ ->]]]; [exact Hv|].
  destruct Hv as [Hd [Ht [Hc Hr]]]. unfold Viewer.inDocument. simpl.
  repeat split; try assumption; try lia.
  apply Forall_app. split; [exact Hr|]. constructor; [lia | constructor].
Qed.

Lemma renderPage_controls pageNum v :
  Viewer.controlsInStep v -> Viewer.controlsInStep (Viewer.renderPage pageNum v).
Proof.
  intros Hv. destruct (renderPage_cases pageNum v) as [-> | [_ [_ ->]]]; exact Hv.
Qed.

Lemma updatePageControls_controls v :
  Viewer.controlsInStep (Viewer.updatePageControls v).
Proof.
  unfold Viewer.controlsInStep, Viewer.updatePageControls. simpl.
  repeat split; intros x; [destruct (Viewer.pageInfo v) | destruct (Viewer.prevPage v)
                          | destruct (Viewer.nextPage v)]; simpl; congruence.
Qed.

Lemma step_inDocument n v e :
  Viewer.inDocument n v -> Viewer.inDocument n (Viewer.step v e).
Proof.
  intros Hv. destruct e as [| |pageNum|i drawn]; simpl.
  - unfold Viewer.goToPrevPage. destruct (1 <? Viewer.currentPage v); [|exact Hv].
    apply renderPage_inDocument. exact Hv.
  - unfold Viewer.goToNextPage.
    destruct (Viewer.currentPage v <? Viewer.totalPages v); [|exact Hv].
    apply renderPage_inDocument. exact Hv.
  - unfold Viewer.goToPage. destruct (_ && _); [|exact Hv].
    apply renderPage_inDocument. exact Hv.
  - unfold Viewer.finishRenderPage.
    destruct (Viewer.rendering v !! i) as [pageNum|] eqn:Ei; [|exact Hv].
    destruct Hv as [Hd [Ht [Hc Hr]]].
    pose proof (Forall_lookup_1 _ _ _ _ Hr Ei) as Hp. simpl in Hp.
    destruct drawn; unfold Viewer.inDocument; simpl;
      repeat split; try assumption; try lia; apply without_Forall; exact Hr.
Qed.

Lemma step_controls v e :
  Viewer.controlsInStep v -> Viewer.controlsInStep (Viewer.step v e).
Proof.
  intros Hv. destruct e as [| |pageNum|i drawn]; simpl.
  - unfold Viewer.goToPrevPage. destruct (1 <? Viewer.currentPage v); [|exact Hv].
    apply renderPage_controls. exact Hv.
  - unfold Viewer.goToNextPage.
    destruct (Viewer.currentPage v <? Viewer.totalPages v); [|exact Hv].
    apply renderPage_controls. exact Hv.
  - unfold Viewer.goToPage. destruct (_ && _); [|exact Hv].
    apply renderPage_controls. exact Hv.
  - unfold Viewer.finishRenderPage.
    destruct (Viewer.rendering v !! i) as [pageNum|]; [|exact Hv].
    destruct drawn; [apply updatePageControls_controls | exact Hv].
Qed.

(** X13: once a document of at least one page is shown in a viewer that was
    rendering nothing, the current page and every page being rendered stay
    within 1..[numPages], whatever is clicked and however the renderings end,
    and the page count stays [numPages]. *)
Theorem navigation_stays_in_document (numPages : nat) (v : Viewer.State)
    (events : list Viewer.Event) :
  1 <= numPages ->
  Viewer.rendering v = [] ->
  Viewer.totalPages (Viewer.browse numPages v events) = numPages /\
  1 <= Viewer.currentPage (Viewer.browse numPages v events) <= numPages /\
  Forall (fun pageNum => 1 <= pageNum <= numPages)
    (Viewer.rendering (Viewer.browse numPages v events)).
Proof.
  intros Hn Hr. unfold Viewer.browse.
  assert (Hinit : Viewer.inDocument numPages (Viewer.renderPDF numPages v)).
  { unfold Viewer.renderPDF. apply renderPage_inDocument.
    unfold Viewer.inDocument. simpl. rewrite Hr. repeat split; try lia. constructor. }
  revert Hinit. generalize (Viewer.renderPDF numPages v).
  induction events as [|e events IH]; intros v' Hv'.
  - destruct Hv' as [_ [Ht [Hc Hf]]]. simpl. repeat split; assumption || lia.
  - simpl. apply IH. apply step_inDocument. exact Hv'.
Qed.

Lemma navigation_stays_in_document_witness :
  Viewer.totalPages
    (Viewer.browse 3 (Viewer.initial (Some []) (Some Viewer.Untouched)
                        (Some true) (Some true))
       [Viewer.RenderFinished 0 true; Viewer.NextClicked; Viewer.NextClicked;
        Viewer.RenderFinished 1 true; Viewer.ReferenceClicked 7]) = 3 /\
  1 <= Viewer.currentPage
         (Viewer.browse 3 (Viewer.initial (Some []) (Some Viewer.Untouched)
                             (Some true) (Some true))
            [Viewer.RenderFinished 0 true; Viewer.NextClicked; Viewer.NextClicked;
             Viewer.RenderFinished 1 true; Viewer.ReferenceClicked 7]) <= 3 /\
  Forall (fun pageNum => 1 <= pageNum <= 3)
    (Viewer.rendering
       (Viewer.browse 3 (Viewer.initial (Some []) (Some Viewer.Untouched)
                           (Some true) (Some true))
          [Viewer.RenderFinished 0 true; Viewer.NextClicked; Viewer.NextClicked;
           Viewer.RenderFinished 1 true; Viewer.ReferenceClicked 7])).
Proof.
  apply (navigation_stays_in_document 3); [lia | reflexivity].
Defined.

(** X14: once a document is shown, the page indicator and the two buttons
    always agree with the position: the indicator reads the current page and
    the page count, the previous button is disabled exactly on page 1 (or
    below), the next button exactly on the last page (or beyond). *)
Theorem controls_show_position (numPages : nat) (v : Viewer.State)
    (events : list Viewer.Event) :
  Viewer.controlsInStep (Viewer.browse numPages v events).
Proof.
  unfold Viewer.browse.
  assert (Hinit : Viewer.controlsInStep (Viewer.renderPDF numPages v)).
  { unfold Viewer.renderPDF. apply renderPage_controls.
    apply updatePageControls_controls. }
  revert Hinit. generalize (Viewer.renderPDF numPages v).
  induction events as [|e events IH]; intros v' Hv'; [exact Hv'|].
  simpl. apply IH. apply step_controls. exact Hv'.
Qed.

Lemma renderPage_starts pageNum v content :
  Viewer.pdfDocument v = true -> Viewer.pdfContent v = Some content ->
  1 <= pageNum <= Viewer.totalPages v ->
  Viewer.renderPage pageNum v
  = {| Viewer.pdfDocument := true;
       Viewer.currentPage := Viewer.currentPage v;
       Viewer.totalPages := Viewer.totalPages v;
       Viewer.pdfContent := Some [];
       Viewer.pageInfo := Viewer.pageInfo v;
       Viewer.prevPage := Viewer.prevPage v;
       Viewer.nextPage := Viewer.nextPage v;
       Viewer.rendering := Viewer.rendering v ++ [pageNum] |}.
Proof.
  intros Hd Hc Hp. unfold Viewer.renderPage. rewrite Hd, Hc.
  destruct (Nat.ltb_spec pageNum 1); [lia|].
  destruct (Nat.ltb_spec (Viewer.totalPages v) pageNum); [lia|]. reflexivity.
Qed.

(** X15: in a viewer that shows a document, has its content element and
    renders nothing, on a page before the last one, the next button followed
    by the previous button (each rendering drawn) leads one page on and then
    back to the page it started from, with only that page drawn. *)
Theorem next_then_previous_returns (v : Viewer.State) (content : list nat) :
  Viewer.pdfDocument v = true ->
  Viewer.pdfContent v = Some content ->
  Viewer.rendering v = [] ->
  1 <= Viewer.currentPage v < Viewer.totalPages v ->
  Viewer.currentPage (Viewer.finishRenderPage 0 true (Viewer.goToNextPage v))
  = Viewer.currentPage v + 1 /\
  Viewer.currentPage
    (Viewer.finishRenderPage 0 true
       (Viewer.goToPrevPage
          (Viewer.finishRenderPage 0 true (Viewer.goToNextPage v))))
  = Viewer.currentPage v /\
  Viewer.pdfContent
    (Viewer.finishRenderPage 0 true
       (Viewer.goToPrevPage
          (Viewer.finishRenderPage 0 true (Viewer.goToNextPage v))))
  = Some [Viewer.currentPage v] /\
  Viewer.rendering
    (Viewer.finishRenderPage 0 true
       (Viewer.goToPrevPage
          (Viewer.finishRenderPage 0 true (Viewer.goToNextPage v))))
  = [].
Proof.
  intros Hd Hc Hr Hp.
  assert (Hnext : Viewer.goToNextPage v
                  = Viewer.renderPage (Viewer.currentPage v + 1) v).
  { unfold Viewer.goToNextPage.
    destruct (Nat.ltb_spec (Viewer.currentPage v) (Viewer.totalPages v)); [reflexivity | lia]. }
  rewrite Hnext, (renderPage_starts _ _ _ Hd Hc) by lia. rewrite Hr.
  set (v1 := Viewer.finishRenderPage 0 true _).
  assert (H1 : Viewer.currentPage v1 = Viewer.currentPage v + 1) by reflexivity.
  assert (Hprev : Viewer.goToPrevPage v1 = Viewer.renderPage (Viewer.currentPage v) v1).
  { unfold Viewer.goToPrevPage. rewrite H1.
    destruct (Nat.ltb_spec 1 (Viewer.currentPage v + 1)); [|lia].
    f_equal. lia. }
  rewrite Hprev.
  rewrite (renderPage_starts (Viewer.currentPage v) v1 [Viewer.currentPage v + 1]);
    [|reflexivity|reflexivity|simpl; lia].
  repeat split; reflexivity.
Qed.

Lemma next_then_previous_returns_witness :
  Viewer.currentPage
    (Viewer.finishRenderPage 0 true
       (Viewer.goToPrevPage
          (Viewer.finishRenderPage 0 true
             (Viewer.goToNextPage
                (Viewer.finishRenderPage 0 true
                   (Viewer.renderPDF 3
                      (Viewer.initial (Some []) None None None)))))))
  = 1.
Proof.
  apply (next_then_previous_returns
           (Viewer.finishRenderPage 0 true
              (Viewer.renderPDF 3 (Viewer.initial (Some []) None None None)))
           [1]); [reflexivity | reflexivity | reflexivity | simpl; lia].
Defined.

(** X16: in a viewer that shows a document of at least one page and has its
    content element, a click on a page reference of an answer rendered for
    that page count starts the rendering of the referenced page, unless it is
    the current page, in which case nothing happens; the reference is never
    refused as outside the document. *)
Theorem reference_click_renders (v : Viewer.State) (content : list nat)
    (pages : option (gmap nat jsstring)) (answer : jsstring) (b : Block)
    (pageNum : nat) :
  Viewer.pdfDocument v = true ->
  Viewer.pdfContent v = Some content ->
  1 <= Viewer.totalPages v ->
  In b (formatAIResponse pages (Viewer.totalPages v) answer) ->
  pageRef b = Some pageNum ->
  (pageNum = Viewer.currentPage v -> Viewer.goToPage pageNum v = v) /\
  (pageNum <> Viewer.currentPage v ->
   Viewer.rendering (Viewer.goToPage pageNum v) = Viewer.rendering v ++ [pageNum]).
Proof.
  intros Hd Hc Ht Hb Hp.
  assert (Hrange : 1 <= pageNum <= Viewer.totalPages v).
  { unfold formatAIResponse in Hb. apply in_flat_map in Hb as [sentence [Hs Hb]].
    destruct (formatSentence_one pages (Viewer.totalPages v) sentence
                (sentencesOf_nonblank _ _ Hs)) as [b' [E [_ [Hr _]]]].
    rewrite E in Hb. destruct Hb as [<- | []]. specialize (Hr _ Hp). lia. }
  unfold Viewer.goToPage.
  destruct (Nat.leb_spec 1 pageNum); [|lia].
  destruct (Nat.leb_spec pageNum (Viewer.totalPages v)); [|lia].
  destruct (Nat.eqb_spec pageNum (Viewer.currentPage v)); simpl.
  - split; [reflexivity | congruence].
  - split; [congruence|]. intros _.
    rewrite (renderPage_starts _ _ _ Hd Hc Hrange). reflexivity.
Qed.

Lemma reference_click_renders_witness :
  (3 = 1 ->
   Viewer.goToPage 3
     (Viewer.finishRenderPage 0 true
        (Viewer.renderPDF 3 (Viewer.initial (Some []) None None None)))
   = Viewer.finishRenderPage 0 true
       (Viewer.renderPDF 3 (Viewer.initial (Some []) None None None))) /\
  (3 <> 1 ->
   Viewer.rendering
     (Viewer.goToPage 3
        (Viewer.finishRenderPage 0 true
           (Viewer.renderPDF 3 (Viewer.initial (Some []) None None None))))
   = [] ++ [3]).
Proof.
  apply (reference_click_renders
           (Viewer.finishRenderPage 0 true
              (Viewer.renderPDF 3 (Viewer.initial (Some []) None None None)))
           [1] (Some Sample.cellPages) Sample.cellSegment
           (Referenced Sample.cellSegment 3) 3).
  - reflexivity.
  - reflexivity.
  - simpl. lia.
  - vm_compute. left. reflexivity.
  - reflexivity.
Defined.

(** ** Names in the session list *)

Lemma strEq_spec a b : History.strEq a b = true <-> a = b.
Proof.
  revert b. induction a as [|x a IH]; intros [|y b]; simpl;
    try (split; [discriminate | intros H; discriminate]).
  - split; reflexivity.
  - rewrite andb_true_iff, IH. unfold ascii_eqb. rewrite Ascii.eqb_eq.
    split; [intros [-> ->]; reflexivity | intros [= -> ->]; auto].
Qed.

Lemma strEq_refl a : History.strEq a a = true.
Proof. apply strEq_spec. reflexivity. Qed.

Lemma strEq_false a b : History.strEq a b = false <-> a <> b.
Proof.
  rewrite <- strEq_spec. destruct (History.strEq a b); split; congruence.
Qed.

Lemma truncateText_long text maxLength :
  maxLength < length text ->
  History.truncateText (Some text) maxLength
  = firstn (maxLength - 3) text ++ str "...".
Proof.
  intros H. unfold History.truncateText.
  destruct text as [|c t]; [simpl in H; lia|].
  destruct (Nat.leb_spec (length (c :: t)) maxLength); [lia | reflexivity].
Qed.

Lemma truncateText_short text maxLength :
  length text <= maxLength -> History.truncateText (Some text) maxLength = text.
Proof.
  intros H. unfold History.truncateText. destruct text as [|c t]; [reflexivity|].
  destruct (Nat.leb_spec (length (c :: t)) maxLength); [reflexivity | lia].
Qed.

Lemma truncateText_length text maxLength :
  3 <= maxLength -> maxLength < length text ->
  length (History.truncateText (Some text) maxLength) = maxLength.
Proof.
  intros H3 H. rewrite (truncateText_long _ _ H), length_app, length_firstn.
  change (length (str "...")) with 3. lia.
Qed.

(** X17: for a limit of at least 3, [truncateText] gives at most [maxLength]
    code units: a text within the limit is returned as it is, a longer one
    is cut to its first [maxLength - 3] code units followed by three dots,
    [maxLength] code units in all; truncating the result again changes
    nothing. *)
Theorem truncateText_within_limit (text : jsstring) (maxLength : nat) :
  3 <= maxLength ->
  length (History.truncateText (Some text) maxLength) <= maxLength /\
  (length text <= maxLength ->
   History.truncateText (Some text) maxLength = text) /\
  (maxLength < length text ->
   History.truncateText (Some text) maxLength
   = firstn (maxLength - 3) text ++ str "..." /\
   length (History.truncateText (Some text) maxLength) = maxLength) /\
  History.truncateText (Some (History.truncateText (Some text) maxLength)) maxLength
  = History.truncateText (Some text) maxLength.
Proof.
  intros H3.
  assert (Hlen : length (History.truncateText (Some text) maxLength) <= maxLength).
  { destruct (Nat.le_gt_cases (length text) maxLength) as [H|H].
    - rewrite (truncateText_short _ _ H). exact H.
    - rewrite (truncateText_length _ _ H3 H). lia. }
  split; [exact Hlen|]. split; [apply truncateText_short|]. split.
  - intros H. split; [apply truncateText_long | apply truncateText_length]; assumption.
  - apply truncateText_short. exact Hlen.
Qed.

Lemma truncateText_within_limit_witness :
  length (History.truncateText
            (Some (str "Quarterly report on mitochondria.pdf")) 20) <= 20 /\
  History.truncateText (Some (str "Quarterly report on mitochondria.pdf")) 20
  = str "Quarterly report ...".
Proof.
  destruct (truncateText_within_limit
              (str "Quarterly report on mitochondria.pdf") 20) as [H1 [_ [H2 _]]];
    [lia|].
  split; [exact H1|]. destruct H2 as [H2 _]; [simpl; lia|]. exact H2.
Defined.

Lemma sessionName_nonempty session : History.sessionName session <> [].
Proof.
  unfold History.sessionName, History.orElse.
  destruct (History.name session) as [[|c t]|];
    destruct (History.session_name session) as [[|c' t']|]; discriminate.
Qed.

(** X18: the name shown for a session in the list is never empty and has at
    most 25 code units, whichever of its two names the session has (the
    empty string counting as none) or if it has none. *)
Theorem shown_name_bounds (session : History.Session) :
  1 <= length (History.shownName session) <= 25.
Proof.
  unfold History.shownName.
  pose proof (sessionName_nonempty session) as Hne.
  destruct (Nat.le_gt_cases (length (History.sessionName session)) 25) as [H|H].
  - rewrite (truncateText_short _ _ H).
    destruct (History.sessionName session); [congruence | simpl in *; lia].
  - rewrite truncateText_length; lia.
Qed.

(** ** The groups of the session list *)

Section GroupingFacts.

Variable dayOf : option jsstring -> jsstring.
Variables today yesterday : jsstring.

Local Abbreviation keyOf := (History.groupKey dayOf today yesterday).

Lemma addToGroup_groupOf key session grouped k :
  History.groupOf k (History.addToGroup key session grouped)
  = if History.strEq key k then History.groupOf k grouped ++ [session]
    else History.groupOf k grouped.
Proof.
  induction grouped as [|[k0 members] rest IH]; simpl.
  - destruct (History.strEq key k); reflexivity.
  - destruct (History.strEq k0 key) eqn:E0; simpl.
    + apply strEq_spec in E0 as ->.
      destruct (History.strEq key k); reflexivity.
    + rewrite IH. destruct (History.strEq k0 k) eqn:E1; [|reflexivity].
      apply strEq_spec in E1 as ->. rewrite strEq_false in E0.
      assert (E2 : History.strEq key k = false) by (apply strEq_false; congruence).
      rewrite E2. reflexivity.
Qed.

Lemma addToGroup_keys key session grouped k :
  In k (map fst (History.addToGroup key session grouped))
  <-> k = key \/ In k (map fst grouped).
Proof.
  induction grouped as [|[k0 members] rest IH]; simpl.
  - split; intros [H | []]; left; congruence.
  - destruct (History.strEq k0 key) eqn:E0; simpl.
    + apply strEq_spec in E0 as ->.
      split; [intros [H | H]; [left; congruence | right; right; exact H]
             |intros [H | [H | H]]; [left; congruence | left; exact H | right; exact H]].
    + rewrite IH.
      split; [intros [H | [H | H]]; [right; left; exact H | left; exact H
                                     | right; right; exact H]
             |intros [H | [H | H]]; [right; left; exact H | left; exact H
                                     | right; right; exact H]].
Qed.

Lemma addToGroup_NoDup key session grouped :
  List.NoDup (map fst grouped) ->
  List.NoDup (map fst (History.addToGroup key session grouped)).
Proof.
  induction grouped as [|[k0 members] rest IH]; simpl; intros H.
  - constructor; [intros [] | constructor].
  - destruct (History.strEq k0 key) eqn:E0; simpl; [exact H|].
    apply List.NoDup_cons_iff in H as [Hn Hr]. apply List.NoDup_cons_iff. split; [|apply IH; exact Hr].
    rewrite addToGroup_keys. intros [-> | Hin]; [|exact (Hn Hin)].
    rewrite strEq_refl in E0. discriminate.
Qed.

Lemma addToGroup_nonempty key session grouped :
  Forall (fun g => snd g <> []) grouped ->
  Forall (fun g => snd g <> []) (History.addToGroup key session grouped).
Proof.
  induction grouped as [|[k0 members] rest IH]; simpl; intros H.
  - constructor; [discriminate | constructor].
  - inversion H as [|? ? Hm Hr]; subst.
    destruct (History.strEq k0 key); constructor; auto.
    simpl. destruct members; discriminate.
Qed.

Lemma groupOf_member grouped k members :
  List.NoDup (map fst grouped) -> In (k, members) grouped ->
  History.groupOf k grouped = members.
Proof.
  induction grouped as [|[k0 m0] rest IH]; simpl; intros Hnd Hin; [destruct Hin|].
  apply List.NoDup_cons_iff in Hnd as [Hn Hr].
  destruct Hin as [[= -> ->] | Hin].
  - rewrite strEq_refl. reflexivity.
  - destruct (History.strEq k0 k) eqn:E; [|apply IH; assumption].
    apply strEq_spec in E as ->. exfalso. apply Hn.
    apply in_map_iff. exists (k, members). split; [reflexivity | exact Hin].
Qed.

Lemma groupOf_listed grouped k :
  In k (map fst grouped) -> In (k, History.groupOf k grouped) grouped.
Proof.
  induction grouped as [|[k0 m0] rest IH]; simpl; intros Hin; [destruct Hin|].
  destruct (History.strEq k0 k) eqn:E.
  - apply strEq_spec in E as ->. left. reflexivity.
  - right. apply IH. destruct Hin as [-> | Hin]; [|exact Hin].
    rewrite strEq_refl in E. discriminate.
Qed.

Lemma grouping_fold sessions : forall grouped,
  let result :=
    fold_left (fun g s => History.addToGroup (keyOf s) s g) sessions grouped in
  (List.NoDup (map fst grouped) -> List.NoDup (map fst result)) /\
  (Forall (fun g => snd g <> []) grouped -> Forall (fun g => snd g <> []) result) /\
  (forall k, History.groupOf k result
             = History.groupOf k grouped
               ++ List.filter (fun s => History.strEq (keyOf s) k) sessions) /\
  (forall k, In k (map fst result)
             <-> In k (map fst grouped) \/ In k (map keyOf sessions)).
Proof.
  induction sessions as [|s sessions IH]; intros grouped; simpl.
  - split; [auto|]. split; [auto|]. split.
    + intros k. rewrite app_nil_r. reflexivity.
    + intros k. split; [intros H; left; exact H | intros [H | []]; exact H].
  - specialize (IH (History.addToGroup (keyOf s) s grouped)).
    simpl in IH. destruct IH as [H1 [H2 [H3 H4]]].
    split; [|split; [|split]].
    + intros H. apply H1. apply addToGroup_NoDup. exact H.
    + intros H. apply H2. apply addToGroup_nonempty. exact H.
    + intros k. rewrite H3, addToGroup_groupOf.
      destruct (History.strEq (keyOf s) k); [|reflexivity].
      rewrite <- app_assoc. reflexivity.
    + intros k. rewrite H4, addToGroup_keys.
      split; [intros [[H | H] | H]; [right; left; congruence | left; exact H
                                     | right; right; exact H]
             |intros [H | [H | H]]; [left; right; exact H | left; left; congruence
                                     | right; exact H]].
Qed.

Lemma grouping_spec sessions :
  let grouped := History.groupSessionsByDate dayOf today yesterday sessions in
  List.NoDup (map fst grouped) /\
  (forall k members, In (k, members) grouped ->
     members <> [] /\
     members = List.filter (fun s => History.strEq (keyOf s) k) sessions) /\
  (forall s, In s sessions ->
     exists members, In (keyOf s, members) grouped /\ In s members).
Proof.
  destruct (grouping_fold sessions []) as [H1 [H2 [H3 H4]]].
  unfold History.groupSessionsByDate.
  cbv zeta in *. set (grouped := fold_left _ sessions []) in *.
  assert (Hnd : List.NoDup (map fst grouped)) by (apply H1; constructor).
  split; [exact Hnd|]. split.
  - intros k members Hin. split.
    + specialize (H2 (List.Forall_nil _)). rewrite List.Forall_forall in H2.
      apply (H2 (k, members) Hin).
    + rewrite <- (groupOf_member _ _ _ Hnd Hin), H3. reflexivity.
  - intros s Hs. exists (History.groupOf (keyOf s) grouped). split.
    + apply groupOf_listed. apply H4. right. apply in_map. exact Hs.
    + rewrite H3. simpl. apply filter_In. split; [exact Hs | apply strEq_refl].
Qed.

End GroupingFacts.

(** X19: [groupSessionsByDate] lists every session once: its groups have
    distinct keys, no group is empty, a group holds exactly the sessions
    whose day gives its key, in their order in the list, and every session is
    in the group of its key. *)
Theorem sessions_grouped_once (dayOf : option jsstring -> jsstring)
    (today yesterday : jsstring) (sessions : list History.Session) :
  List.NoDup (map fst (History.groupSessionsByDate dayOf today yesterday sessions)) /\
  (forall k members,
     In (k, members) (History.groupSessionsByDate dayOf today yesterday sessions) ->
     members <> [] /\
     members
     = List.filter
         (fun s => History.strEq (History.groupKey dayOf today yesterday s) k)
         sessions) /\
  (forall s, In s sessions ->
     exists members,
       In (History.groupKey dayOf today yesterday s, members)
         (History.groupSessionsByDate dayOf today yesterday sessions) /\
       In s members).
Proof. apply grouping_spec. Qed.

(** ** Deleting and renaming a session *)

(** X20: after the server has confirmed a deletion, the session list shows
    no session with the deleted id and still shows every other session, each
    in the group of its day; the current session is forgotten exactly when it
    is the deleted one; a deletion the server does not confirm changes
    nothing. *)
Theorem deleted_session_not_listed (dayOf : option jsstring -> jsstring)
    (today yesterday : jsstring) (sessionId : jsstring) (st : History.State) :
  (forall k members s,
     In (k, members)
       (History.groupSessionsByDate dayOf today yesterday
          (History.sessions (History.deleteSettled true sessionId st))) ->
     In s members -> History.id s <> sessionId /\ In s (History.sessions st)) /\
  (forall s, In s (History.sessions st) -> History.id s <> sessionId ->
     exists members,
       In (History.groupKey dayOf today yesterday s, members)
         (History.groupSessionsByDate dayOf today yesterday
            (History.sessions (History.deleteSettled true sessionId st))) /\
       In s members) /\
  (History.currentSessionId st = Some sessionId ->
   History.currentSessionId (History.deleteSettled true sessionId st) = None) /\
  (History.currentSessionId st <> Some sessionId ->
   History.currentSessionId (History.deleteSettled true sessionId st)
   = History.currentSessionId st) /\
  History.deleteSettled false sessionId st = st.
Proof.
  destruct (grouping_spec dayOf today yesterday
              (History.sessions (History.deleteSettled true sessionId st)))
    as [_ [Hmembers Hlisted]].
  split; [|split; [|split; [|split; [|reflexivity]]]].
  - intros k members s Hin Hs. destruct (Hmembers k members Hin) as [_ E].
    rewrite E in Hs. apply filter_In in Hs as [Hs _]. simpl in Hs.
    apply filter_In in Hs as [Hs Hid]. split; [|exact Hs].
    apply negb_true_iff in Hid. apply strEq_false. exact Hid.
  - intros s Hs Hid. apply Hlisted. simpl. apply filter_In. split; [exact Hs|].
    apply negb_true_iff. apply strEq_false. exact Hid.
  - intros Hc. simpl. unfold History.isCurrent. rewrite Hc, strEq_refl. reflexivity.
  - intros Hc. simpl. unfold History.isCurrent.
    destruct (History.currentSessionId st) as [current|]; [|reflexivity].
    destruct (History.strEq sessionId current) eqn:E; [|reflexivity].
    apply strEq_spec in E. congruence.
Qed.

Lemma renameFirst_ids sessionId newName l :
  map History.id (History.renameFirst sessionId newName l) = map History.id l.
Proof.
  induction l as [|s l IH]; [reflexivity|]. simpl.
  destruct (History.strEq (History.id s) sessionId); simpl; congruence.
Qed.

Lemma renameFirst_others sessionId newName l :
  List.filter (fun s => negb (History.strEq (History.id s) sessionId))
    (History.renameFirst sessionId newName l)
  = List.filter (fun s => negb (History.strEq (History.id s) sessionId)) l.
Proof.
  induction l as [|s l IH]; [reflexivity|]. simpl.
  destruct (History.strEq (History.id s) sessionId) eqn:E; simpl; rewrite E; simpl.
  - reflexivity.
  - rewrite IH. reflexivity.
Qed.

Lemma renameFirst_found sessionId newName l s' :
  newName <> [] ->
  find (fun s => History.strEq (History.id s) sessionId)
    (History.renameFirst sessionId newName l) = Some s' ->
  History.sessionName s' = newName.
Proof.
  intros Hne. induction l as [|s l IH]; simpl; [discriminate|].
  destruct (History.strEq (History.id s) sessionId) eqn:E; simpl; rewrite E.
  - intros [= <-]. unfold History.sessionName, History.orElse. simpl.
    destruct newName; [congruence | reflexivity].
  - exact IH.
Qed.

(** X21: when [renameSession] sends a name (the prompt was answered with a
    non-empty name other than the current one) and the server confirms it,
    the ids of the listed sessions and their order stay, the sessions with
    other ids stay as they are, and the session found under the id has the
    new name; what its list entry shows is [truncateText] of the new name at
    25: the new name itself when it has at most 25 code units, and its first
    22 code units followed by three dots when it is longer. *)
Theorem renamed_session_shown_name (currentName : jsstring)
    (answer : option jsstring) (newName sessionId : jsstring)
    (st : History.State) :
  History.renameRequest currentName answer = Some newName ->
  newName <> currentName /\
  map History.id
    (History.sessions (History.renameSettled true sessionId newName st))
  = map History.id (History.sessions st) /\
  List.filter (fun s => negb (History.strEq (History.id s) sessionId))
    (History.sessions (History.renameSettled true sessionId newName st))
  = List.filter (fun s => negb (History.strEq (History.id s) sessionId))
      (History.sessions st) /\
  (forall s',
     find (fun s => History.strEq (History.id s) sessionId)
       (History.sessions (History.renameSettled true sessionId newName st))
     = Some s' ->
     History.sessionName s' = newName /\
     History.shownName s' = History.truncateText (Some newName) 25 /\
     (length newName <= 25 -> History.shownName s' = newName) /\
     (25 < length newName ->
      History.shownName s' = firstn 22 newName ++ str "...")).
Proof.
  intros Hreq. unfold History.renameRequest in Hreq.
  destruct answer as [[|c t]|]; try discriminate.
  destruct (History.strEq (c :: t) currentName) eqn:E; [discriminate|].
  injection Hreq as <-. apply strEq_false in E.
  split; [exact E|]. split; [apply renameFirst_ids|].
  split; [apply renameFirst_others|].
  intros s' Hfind.
  assert (Hname : History.sessionName s' = c :: t)
    by (revert Hfind; apply renameFirst_found; discriminate).
  unfold History.shownName. rewrite Hname.
  split; [reflexivity|]. split; [reflexivity|]. split.
  - apply truncateText_short.
  - intros Hlong. apply (truncateText_long (c :: t) 25 Hlong).
Qed.

Lemma renamed_session_shown_name_witness :
  str "Biology notes for the second term exam" <> str "Untitled Session" /\
  map History.id
    (History.sessions
       (History.renameSettled true (str "s1")
          (str "Biology notes for the second term exam")
          (History.sessionsFetched
             (Some [{| History.id := str "s1"; History.name := None;
                       History.session_name := None;
                       History.pdf_filename := Some (str "cell.pdf");
                       History.updated_at := None;
                       History.created_at := Some (str "2024-05-01") |}])
             None History.initial)))
  = [str "s1"] /\
  History.shownName
    {| History.id := str "s1";
       History.name := Some (str "Biology notes for the second term exam");
       History.session_name :=
         Some (str "Biology notes for the second term exam");
       History.pdf_filename := Some (str "cell.pdf");
       History.updated_at := None;
       History.created_at := Some (str "2024-05-01") |}
  = str "Biology notes for the ...".
Proof.
  destruct (renamed_session_shown_name (str "Untitled Session")
              (Some (str "Biology notes for the second term exam"))
              (str "Biology notes for the second term exam") (str "s1")
              (History.sessionsFetched
                 (Some [{| History.id := str "s1"; History.name := None;
                           History.session_name := None;
                           History.pdf_filename := Some (str "cell.pdf");
                           History.updated_at := None;
                           History.created_at := Some (str "2024-05-01") |}])
                 None History.initial)) as [H1 [H2 [_ H4]]]; [reflexivity|].
  split; [exact H1|]. split; [exact H2|].
  destruct (H4 {| History.id := str "s1";
                  History.name :=
                    Some (str "Biology notes for the second term exam");
                  History.session_name :=
                    Some (str "Biology notes for the second term exam");
                  History.pdf_filename := Some (str "cell.pdf");
                  History.updated_at := None;
                  History.created_at := Some (str "2024-05-01") |})
    as [_ [_ [_ H]]]; [reflexivity|].
  apply H. vm_compute. lia.
Defined.

(** ** Loading a session *)

Lemma history_step_oneLoad st e : oneLoad st -> oneLoad (History.step st e).
Proof.
  intros Inv.
  destruct e as [sessionId|o| |success sessionId|success sessionId newName
                 |listed current]; simpl.
  - unfold History.loadSession.
    destruct Inv as [[Hf Hl] | [Ht Hl]].
    + rewrite Hf. simpl. destruct (History.isCurrent sessionId st);
        [left; split; assumption|].
      right. simpl. rewrite Hl. split; [reflexivity | eauto].
    + rewrite Ht. simpl. right. split; assumption.
  - unfold History.loadAnswered.
    destruct Inv as [[Hf Hl] | [Ht [sid [phase Hl]]]].
    + rewrite Hl. left. split; assumption.
    + rewrite Hl. destruct phase; [|right; split; eauto].
      destruct o as [| |[|]].
      * left. unfold History.loadFinally. simpl. rewrite ?Hl. split; reflexivity.
      * left. unfold History.loadFinally. simpl. rewrite ?Hl. split; reflexivity.
      * right. simpl. split; [exact Ht | eauto].
      * left. unfold History.loadFinally. simpl. rewrite ?Hl. split; reflexivity.
  - unfold History.pdfLoaded.
    destruct Inv as [[Hf Hl] | [Ht [sid [phase Hl]]]].
    + rewrite Hl. left. split; assumption.
    + rewrite Hl. destruct phase; [right; split; eauto|].
      left. unfold History.loadFinally. simpl. rewrite ?Hl. split; reflexivity.
  - unfold History.deleteSettled. destruct success; exact Inv.
  - unfold History.renameSettled. destruct success; exact Inv.
  - exact Inv.
Qed.

Lemma history_run_oneLoad events : oneLoad (History.run events).
Proof.
  unfold History.run.
  assert (Inv : oneLoad History.initial) by (left; split; reflexivity).
  revert Inv. generalize History.initial.
  induction events as [|e events IH]; intros st Inv; [exact Inv|].
  simpl. apply IH. apply history_step_oneLoad. exact Inv.
Qed.

(** After the answer of the server no call is waiting for it. *)
Lemma loadAnswered_answered st o :
  oneLoad st ->
  forall sessionId rest,
    History.loading (History.loadAnswered o st)
    <> (sessionId, History.AwaitingServer) :: rest.
Proof.
  intros Inv sessionId rest. unfold History.loadAnswered.
  destruct Inv as [[Hf Hl] | [Ht [sid [phase Hl]]]]; rewrite Hl.
  - rewrite Hl. discriminate.
  - destruct phase; [|rewrite Hl; discriminate].
    destruct o as [| |[|]]; unfold History.loadFinally; simpl; rewrite ?Hl;
      discriminate.
Qed.

(** X22: at most one session is being loaded at a time: after any sequence
    of events a call of [loadSession] is on its way exactly while [isLoading]
    is set, and it is the only one; a click on a session while one is being
    loaded, or on the current session, changes nothing; and whatever the
    server answers, once the call has its answer and its PDF the flag is
    cleared and no call is left. *)
Theorem one_session_load_at_a_time (events : list History.Event)
    (sessionId : jsstring) (o : History.LoadOutcome) :
  length (History.loading (History.run events))
  = (if History.isLoading (History.run events) then 1 else 0) /\
  (History.isLoading (History.run events) = true ->
   History.loadSession sessionId (History.run events) = History.run events) /\
  (History.currentSessionId (History.run events) = Some sessionId ->
   History.loadSession sessionId (History.run events) = History.run events) /\
  History.isLoading
    (History.step (History.step (History.run events) (History.LoadAnswered o))
       History.PdfLoaded) = false /\
  History.loading
    (History.step (History.step (History.run events) (History.LoadAnswered o))
       History.PdfLoaded) = [].
Proof.
  pose proof (history_run_oneLoad events) as Inv.
  set (st := History.run events) in *.
  split; [|split; [|split]].
  - destruct Inv as [[-> ->] | [-> [sid [phase ->]]]]; reflexivity.
  - intros H. unfold History.loadSession. rewrite H. reflexivity.
  - intros H. unfold History.loadSession, History.isCurrent.
    rewrite H, strEq_refl, orb_true_r. reflexivity.
  - pose proof (history_step_oneLoad _ (History.LoadAnswered o) Inv) as Inv1.
    pose proof (loadAnswered_answered st o Inv) as Hans.
    change (History.step st (History.LoadAnswered o))
      with (History.loadAnswered o st) in *.
    set (st1 := History.loadAnswered o st) in *.
    change (History.isLoading (History.pdfLoaded st1) = false /\
            History.loading (History.pdfLoaded st1) = []).
    unfold History.pdfLoaded.
    destruct Inv1 as [[Hf Hl] | [Ht [sid [phase Hl]]]]; rewrite Hl.
    + split; assumption.
    + destruct phase; [exfalso; apply (Hans sid []); exact Hl|].
      unfold History.loadFinally. simpl. rewrite Hl. split; reflexivity.
Qed.

Lemma one_session_load_at_a_time_witness :
  History.loadSession (str "s2")
    (History.run [History.SessionClicked (str "s1")])
  = History.run [History.SessionClicked (str "s1")].
Proof.
  destruct (one_session_load_at_a_time [History.SessionClicked (str "s1")]
              (str "s2") History.LoadFailed) as [_ [H _]].
  apply H. reflexivity.
Defined.

(** ** Restoring the chat of a session *)

Lemma restoredMessages_cons m messages :
  restoredMessages (m :: messages)
  = if History.strEq (fst m) (str "system") then restoredMessages messages
    else (senderOf (fst m), Text (snd m)) :: restoredMessages messages.
Proof.
  unfold restoredMessages. cbn [List.filter].
  destruct (History.strEq (fst m) (str "system")); reflexivity.
Qed.

Lemma restore_fold messages : forall w shown,
  messagesContainer (dom w) = Some shown ->
  let w' :=
    fold_left
      (fun w message =>
         if History.strEq (fst message) (str "system") then w
         else addMessage (senderOf (fst message)) (Text (snd message)) w)
      messages w in
  messagesContainer (dom w') = Some (shown ++ restoredMessages messages) /\
  pending w' = pending w /\ globals w' = globals w.
Proof.
  induction messages as [|m messages IH]; intros w shown Hc.
  - cbn [fold_left]. unfold restoredMessages. cbn [List.filter map].
    rewrite app_nil_r. auto.
  - cbn [fold_left]. cbv zeta. rewrite restoredMessages_cons.
    destruct (History.strEq (fst m) (str "system")) eqn:E.
    + apply IH. exact Hc.
    + destruct (IH (addMessage (senderOf (fst m)) (Text (snd m)) w)
                  (shown ++ [(senderOf (fst m), Text (snd m))])) as [H1 [H2 H3]].
      { rewrite addMessage_container, Hc. reflexivity. }
      cbv zeta in *. rewrite H1, H2, H3, addMessage_pending, addMessage_globals.
      rewrite <- app_assoc. auto.
Qed.

(** X23: when the page has a message container and [addMessage] is defined,
    restoring a non-empty list of messages replaces what the container showed
    by these messages, without those of the sender ['system'], in their order,
    the ones of ['user'] in the style of the user and all others in the style
    of the assistant; it sends nothing and leaves the globals alone.
    Restoring no message, or an empty list, leaves the chat that was shown. *)
Theorem restore_replaces_chat (messages : list (jsstring * jsstring))
    (w : World) (shown : list (Sender * Content)) :
  messagesContainer (dom w) = Some shown ->
  messages <> [] ->
  messagesContainer (dom (restoreChatMessages true (Some messages) w))
  = Some (restoredMessages messages) /\
  pending (restoreChatMessages true (Some messages) w) = pending w /\
  globals (restoreChatMessages true (Some messages) w) = globals w /\
  restoreChatMessages true None w = w /\
  restoreChatMessages true (Some []) w = w.
Proof.
  intros Hc Hne. unfold restoreChatMessages.
  destruct messages as [|m messages]; [congruence|]. rewrite Hc.
  destruct (restore_fold (m :: messages) (clearMessages w) []) as [H1 [H2 H3]].
  { unfold clearMessages. simpl. rewrite Hc. reflexivity. }
  cbv zeta in *. rewrite H1, H2, H3. repeat split.
Qed.

Lemma restore_replaces_chat_witness :
  messagesContainer
    (dom (restoreChatMessages true
            (Some [(str "system", str "session opened");
                   (str "user", str "What is the powerhouse of the cell?");
                   (str "assistant", str "The mitochondria.")])
            Sample.busyWorld))
  = Some [(User, Text (str "What is the powerhouse of the cell?"));
          (Ai, Text (str "The mitochondria."))].
Proof.
  destruct (restore_replaces_chat
              [(str "system", str "session opened");
               (str "user", str "What is the powerhouse of the cell?");
               (str "assistant", str "The mitochondria.")]
              Sample.busyWorld
              [(User, Text (str "What is the powerhouse of the cell?"))])
    as [H _]; [reflexivity | discriminate |].
  exact H.
Defined.

(** ** The widgets after a reply *)

Lemma addMessage_widgets sender content w :
  sendButton (dom (addMessage sender content w)) = sendButton (dom w) /\
  typingIndicator (dom (addMessage sender content w)) = typingIndicator (dom w) /\
  messageInput (dom (addMessage sender content w)) = messageInput (dom w).
Proof.
  unfold addMessage. destruct (messagesContainer (dom w)); repeat split.
Qed.

(** X24: however the request of [sendMessage] ends, afterwards the send
    button, if the page has one, is enabled, the typing indicator, if the
    page has one, is hidden, and the text in the input is what it was. *)
Theorem widgets_restored_after_reply (o : Outcome) (w : World) :
  sendButton (dom (resumeSendMessage o w))
  = (fun _ => false) <$> sendButton (dom w) /\
  typingIndicator (dom (resumeSendMessage o w))
  = (fun _ => false) <$> typingIndicator (dom w) /\
  messageInput (dom (resumeSendMessage o w)) = messageInput (dom w).
Proof.
  unfold resumeSendMessage, onChatFinally, onChatError.
  cbn [setSendDisabled setDom dom sendButton typingIndicator messageInput
       setIsProcessingMessage setGlobals].
  destruct o as [|result].
  - destruct (addMessage_widgets Ai
                (Text (str "Error: Unable to connect to server. Please try again."))
                (hideTypingIndicator w)) as [H1 [H2 H3]].
    rewrite H1, H2, H3. repeat split.
  - destruct (success result).
    + destruct (answer result) as [a|].
      * match goal with |- context [addMessage ?s ?c ?x] =>
          destruct (addMessage_widgets s c x) as [H1 [H2 H3]] end.
        rewrite H1, H2, H3. repeat split.
      * match goal with |- context [addMessage ?s ?c ?x] =>
          destruct (addMessage_widgets s c x) as [H1 [H2 H3]] end.
        rewrite H1, H2, H3. simpl.
        destruct (typingIndicator (dom w)); repeat split.
    + match goal with |- context [addMessage ?s ?c ?x] =>
        destruct (addMessage_widgets s c x) as [H1 [H2 H3]] end.
      rewrite H1, H2, H3. repeat split.
Qed.

(** ** Attribution after an extraction *)

Lemma readablePages_all pdfPages :
  length (readablePages pdfPages) = length pdfPages ->
  forall q, 1 <= q <= length pdfPages ->
    exists items, readablePages pdfPages !! (q - 1) = Some items.
Proof.
  intros Hlen q Hq. apply lookup_lt_is_Some. lia.
Qed.



(** ** A failed upload *)

(** X26: when [processFile] fails after it has shown the processing state
    and moved the progress bar to some percentage, the upload section is
    shown again, the processing container hidden, the bar no longer marked
    and the button enabled with its label, whatever they were before; the
    status line reads the general failure text, not the message, which the
    user gets from [alert] only; the progress bar stays where it was and the
    list of steps stays marked active. *)
Theorem failed_upload_resets (message : jsstring) (percentage : nat)
    (ui : Upload.Ui) :
  let ui' :=
    Upload.onProcessError message
      (Upload.updateProgressBar percentage (Upload.showProcessingState ui)) in
  Upload.uploadSection ui' = (fun _ => Upload.DisplayFlex) <$> Upload.uploadSection ui /\
  Upload.processingContainer ui'
  = (fun _ => Upload.DisplayNone) <$> Upload.processingContainer ui /\
  Upload.uploadBar ui' = (fun _ => false) <$> Upload.uploadBar ui /\
  Upload.uploadCompactBtn ui'
  = (fun b => (false, snd b)) <$> Upload.uploadCompactBtn ui /\
  Upload.uploadStatus ui' = (fun _ => Upload.Failed) <$> Upload.uploadStatus ui /\
  Upload.alerts ui'
  = Upload.alerts ui ++ [str "Error processing file: " ++ message] /\
  Upload.progressBar ui' = (fun _ => Some percentage) <$> Upload.progressBar ui /\
  Upload.processingSteps ui' = (fun _ => true) <$> Upload.processingSteps ui.
Proof.
  cbv zeta. unfold Upload.onProcessError, Upload.showError, Upload.resetUploadState,
    Upload.showProcessingState, Upload.updateProgressBar. simpl.
  destruct (Upload.uploadSection ui), (Upload.processingContainer ui),
    (Upload.uploadBar ui), (Upload.uploadCompactBtn ui), (Upload.uploadStatus ui),
    (Upload.progressBar ui), (Upload.processingSteps ui); repeat split.
Qed.

(** ** The marks of a processing step *)

Lemma hasClass_removeClass_same token classes :
  Upload.hasClass token (Upload.removeClass token classes) = false.
Proof.
  unfold Upload.hasClass, Upload.removeClass.
  induction classes as [|c classes IH]; [reflexivity|]. simpl.
  destruct (History.strEq token c) eqn:E; simpl; [exact IH|]. rewrite E. exact IH.
Qed.

Lemma hasClass_removeClass_other token other classes :
  other <> token ->
  Upload.hasClass other (Upload.removeClass token classes)
  = Upload.hasClass other classes.
Proof.
  intros Hne. unfold Upload.hasClass, Upload.removeClass.
  induction classes as [|c classes IH]; [reflexivity|]. simpl.
  destruct (History.strEq token c) eqn:E; simpl.
  - apply strEq_spec in E as <-.
    assert (E' : History.strEq other token = false) by (apply strEq_false; exact Hne).
    rewrite E'. exact IH.
  - rewrite IH. reflexivity.
Qed.

Lemma hasClass_app token classes more :
  Upload.hasClass token (classes ++ more)
  = Upload.hasClass token classes || Upload.hasClass token more.
Proof. unfold Upload.hasClass. apply existsb_app. Qed.

Lemma hasClass_addClass_same token classes :
  Upload.hasClass token (Upload.addClass token classes) = true.
Proof.
  unfold Upload.addClass. destruct (Upload.hasClass token classes) eqn:E; [exact E|].
  rewrite hasClass_app, E. simpl. rewrite strEq_refl. reflexivity.
Qed.

Lemma hasClass_addClass_other token other classes :
  other <> token ->
  Upload.hasClass other (Upload.addClass token classes)
  = Upload.hasClass other classes.
Proof.
  intros Hne. unfold Upload.addClass.
  destruct (Upload.hasClass token classes); [reflexivity|].
  rewrite hasClass_app. simpl.
  assert (E : History.strEq other token = false) by (apply strEq_false; exact Hne).
  rewrite E. simpl. apply orb_false_r.
Qed.

Lemma getElementById_setElement elementId element elements old :
  Upload.getElementById elementId elements = Some old ->
  Upload.getElementById elementId (Upload.setElement elementId element elements)
  = Some element.
Proof.
  induction elements as [|[i e] rest IH]; simpl; [discriminate|].
  destruct (History.strEq i elementId) eqn:E; simpl; rewrite E; [reflexivity | exact IH].
Qed.

Lemma getElementById_setElement_other elementId other element elements :
  other <> elementId ->
  Upload.getElementById other (Upload.setElement elementId element elements)
  = Upload.getElementById other elements.
Proof.
  intros Hne. induction elements as [|[i e] rest IH]; simpl; [reflexivity|].
  destruct (History.strEq i elementId) eqn:E; simpl.
  - apply strEq_spec in E as ->.
    assert (E' : History.strEq elementId other = false)
      by (apply strEq_false; congruence).
    rewrite E'. reflexivity.
  - rewrite IH. reflexivity.
Qed.

(** X27: [updateProcessingStep] leaves a step marked [active] exactly when
    the status is ['active'] and [completed] exactly when it is
    ['completed'], never both, whatever its marks were; the other classes of
    the step and the other elements stay as they are, and a step that is not
    in the document changes nothing. *)
Theorem step_marks_follow_status (stepId status : jsstring)
    (elements : list (jsstring * Upload.StepElement)) :
  (forall step, Upload.getElementById stepId elements = Some step ->
     exists step',
       Upload.getElementById stepId
         (Upload.updateProcessingStep stepId status elements) = Some step' /\
       Upload.hasClass (str "active") (Upload.classList step')
       = History.strEq status (str "active") /\
       Upload.hasClass (str "completed") (Upload.classList step')
       = History.strEq status (str "completed") /\
       (Upload.hasClass (str "active") (Upload.classList step')
        && Upload.hasClass (str "completed") (Upload.classList step') = false) /\
       (forall c, c <> str "active" -> c <> str "completed" ->
          Upload.hasClass c (Upload.classList step')
          = Upload.hasClass c (Upload.classList step))) /\
  (forall other, other <> stepId ->
     Upload.getElementById other (Upload.updateProcessingStep stepId status elements)
     = Upload.getElementById other elements) /\
  (Upload.getElementById stepId elements = None ->
   Upload.updateProcessingStep stepId status elements = elements).
Proof.
  split; [|split].
  - intros step Hstep. unfold Upload.updateProcessingStep. rewrite Hstep.
    set (classes := Upload.removeClass (str "completed")
                      (Upload.removeClass (str "active") (Upload.classList step))).
    assert (Ha : Upload.hasClass (str "active") classes = false).
    { unfold classes. rewrite hasClass_removeClass_other by discriminate.
      apply hasClass_removeClass_same. }
    assert (Hc : Upload.hasClass (str "completed") classes = false).
    { unfold classes. apply hasClass_removeClass_same. }
    assert (Ho : forall c, c <> str "active" -> c <> str "completed" ->
                 Upload.hasClass c classes = Upload.hasClass c (Upload.classList step)).
    { intros c H1 H2. unfold classes.
      rewrite !hasClass_removeClass_other by assumption. reflexivity. }
    destruct (History.strEq status (str "active")) eqn:E1.
    + eexists. split; [eapply getElementById_setElement; exact Hstep|].
      apply strEq_spec in E1 as ->. cbn [Upload.classList].
      rewrite hasClass_addClass_same, hasClass_addClass_other, Hc by discriminate.
      repeat split. intros c H1 H2.
      rewrite hasClass_addClass_other by assumption. apply Ho; assumption.
    + destruct (History.strEq status (str "completed")) eqn:E2.
      * eexists. split; [eapply getElementById_setElement; exact Hstep|].
        cbn [Upload.classList].
        rewrite hasClass_addClass_same, hasClass_addClass_other, Ha by discriminate.
        repeat split. intros c H1 H2.
        rewrite hasClass_addClass_other by assumption. apply Ho; assumption.
      * eexists. split; [eapply getElementById_setElement; exact Hstep|].
        cbn [Upload.classList]. rewrite Ha, Hc. repeat split. exact Ho.
  - intros other Hne. unfold Upload.updateProcessingStep.
    destruct (Upload.getElementById stepId elements); [|reflexivity].
    destruct (History.strEq status (str "active"));
      [|destruct (History.strEq status (str "completed"))];
      apply getElementById_setElement_other; exact Hne.
  - intros Hnone. unfold Upload.updateProcessingStep. rewrite Hnone. reflexivity.
Qed.

Lemma step_marks_follow_status_witness :
  exists step',
    Upload.getElementById (str "step-extract")
      (Upload.updateProcessingStep (str "step-extract") (str "completed")
         [(str "step-upload",
           {| Upload.classList := [str "step"; str "completed"];
              Upload.icon := Some (str "fas fa-check-circle") |});
          (str "step-extract",
           {| Upload.classList := [str "step"; str "active"];
              Upload.icon := Some (str "fas fa-spinner fa-spin") |})])
    = Some step' /\
    Upload.hasClass (str "active") (Upload.classList step') = false /\
    Upload.hasClass (str "completed") (Upload.classList step') = true.
Proof.
  destruct (step_marks_follow_status (str "step-extract") (str "completed")
              [(str "step-upload",
                {| Upload.classList := [str "step"; str "completed"];
                   Upload.icon := Some (str "fas fa-check-circle") |});
               (str "step-extract",
                {| Upload.classList := [str "step"; str "active"];
                   Upload.icon := Some (str "fas fa-spinner fa-spin") |})])
    as [H _].
  destruct (H {| Upload.classList := [str "step"; str "active"];
                 Upload.icon := Some (str "fas fa-spinner fa-spin") |} eq_refl)
    as [step' [H1 [H2 [H3 _]]]].
  exists step'. split; [exact H1|]. split; [exact H2 | exact H3].
Defined.

(** ** Witnesses for the session list *)

Lemma deleted_session_not_listed_witness :
  History.currentSessionId
    (History.deleteSettled true (str "s1")
       (History.run
          [History.SessionsFetched
             (Some [{| History.id := str "s1"; History.name := Some (str "Cells");
                       History.session_name := None; History.pdf_filename := None;
                       History.updated_at := Some (str "2024-05-02");
                       History.created_at := Some (str "2024-05-01") |}])
             (Some (str "s1"))]))
  = None.
Proof.
  destruct (deleted_session_not_listed (fun t => default [] t) (str "2024-05-02")
              (str "2024-05-01") (str "s1")
              (History.run
                 [History.SessionsFetched
                    (Some [{| History.id := str "s1";
                              History.name := Some (str "Cells");
                              History.session_name := None;
                              History.pdf_filename := None;
                              History.updated_at := Some (str "2024-05-02");
                              History.created_at := Some (str "2024-05-01") |}])
                    (Some (str "s1"))]))
    as [_ [_ [H _]]].
  apply H. reflexivity.
Defined.

Lemma sessions_grouped_once_witness :
  History.groupSessionsByDate SampleHistory.dayOf SampleHistory.today
    SampleHistory.yesterday
    [SampleHistory.cells; SampleHistory.plants; SampleHistory.untitled]
  = [(str "Today", [SampleHistory.cells; SampleHistory.untitled]);
     (str "Yesterday", [SampleHistory.plants])] /\
  exists members,
    In (History.groupKey SampleHistory.dayOf SampleHistory.today
          SampleHistory.yesterday SampleHistory.untitled, members)
      (History.groupSessionsByDate SampleHistory.dayOf SampleHistory.today
         SampleHistory.yesterday
         [SampleHistory.cells; SampleHistory.plants; SampleHistory.untitled]) /\
    In SampleHistory.untitled members.
Proof.
  split; [vm_compute; reflexivity|].
  destruct (sessions_grouped_once SampleHistory.dayOf SampleHistory.today
              SampleHistory.yesterday
              [SampleHistory.cells; SampleHistory.plants; SampleHistory.untitled])
    as [_ [_ H]].
  apply H. right. right. left. reflexivity.
Defined.

(** ** A suggested question *)

(** What [sendMessage] leaves when it sends. *)
Lemma sendMessage_sends value disabled w :
  messageInput (dom w) = Some value ->
  sendButton (dom w) = Some disabled ->
  documentProcessed (globals w) = true ->
  isProcessingMessage (globals w) = false ->
  trim value <> [] ->
  pending (sendMessage w)
  = pending w ++ [{| message := trim value; pdf_only := true |}] /\
  messageInput (dom (sendMessage w)) = Some [] /\
  isProcessingMessage (globals (sendMessage w)) = true.
Proof.
  intros Hi Hb Hd Hp Hq.
  set (w1 := setSendDisabled true (setIsProcessingMessage true w)).
  assert (Hs : sendMessage w
               = fetchChat {| message := trim value; pdf_only := true |}
                   (showTypingIndicator
                      (setInputValue []
                         (addMessage User (Text (trim value)) w1)))).
  { unfold sendMessage. rewrite Hi, Hb, Hd, Hp.
    destruct (length (trim value) =? 0) eqn:E; [|reflexivity].
    apply Nat.eqb_eq in E. apply length_zero_iff_nil in E. congruence. }
  rewrite Hs.
  destruct (addMessage_widgets User (Text (trim value)) w1) as [_ [_ H3]].
  unfold fetchChat, showTypingIndicator, setTyping, setInputValue, setDom.
  cbn [pending dom globals messageInput].
  rewrite addMessage_pending, addMessage_globals, H3.
  unfold w1. cbn [setSendDisabled setIsProcessingMessage setDom setGlobals
                  dom globals pending messageInput isProcessingMessage].
  rewrite Hi. repeat split.
Qed.

(** X28: on a page with its input and button, with a document processed and
    no message being processed, a suggested question is put in the input,
    which drops its line feeds and carriage returns, and what the input then
    holds is sent, trimmed, when it is not blank, whatever the user had
    typed: the typed text is replaced and the input ends empty. *)
Theorem suggested_question_replaces_draft (question draft : jsstring)
    (disabled : bool) (w : World) :
  messageInput (dom w) = Some draft ->
  sendButton (dom w) = Some disabled ->
  documentProcessed (globals w) = true ->
  isProcessingMessage (globals w) = false ->
  trim (stripNewlines question) <> [] ->
  pending (askSuggestedQuestion question w)
  = pending w
    ++ [{| message := trim (stripNewlines question); pdf_only := true |}] /\
  messageInput (dom (askSuggestedQuestion question w)) = Some [] /\
  isProcessingMessage (globals (askSuggestedQuestion question w)) = true.
Proof.
  intros Hi Hb Hd Hp Hq. unfold askSuggestedQuestion. rewrite Hp, Hi.
  apply (sendMessage_sends (stripNewlines question) disabled
           (setInputValue question w)).
  - simpl. rewrite Hi. reflexivity.
  - exact Hb.
  - exact Hd.
  - exact Hp.
  - exact Hq.
Qed.

Lemma suggested_question_replaces_draft_witness :
  pending (askSuggestedQuestion
             (str " line one" ++ ["010"%char] ++ str "line two ")
             (step (initialWorld Sample.chatDom)
                (DocumentReady Sample.cellPages 3)))
  = [{| message := str "line oneline two"; pdf_only := true |}] /\
  messageInput
    (dom (askSuggestedQuestion
            (str " line one" ++ ["010"%char] ++ str "line two ")
            (step (initialWorld Sample.chatDom)
               (DocumentReady Sample.cellPages 3)))) = Some [] /\
  isProcessingMessage
    (globals (askSuggestedQuestion
                (str " line one" ++ ["010"%char] ++ str "line two ")
                (step (initialWorld Sample.chatDom)
                   (DocumentReady Sample.cellPages 3)))) = true.
Proof.
  apply (suggested_question_replaces_draft
           (str " line one" ++ ["010"%char] ++ str "line two ")
           (str "What is the powerhouse of the cell?") false
           (step (initialWorld Sample.chatDom) (DocumentReady Sample.cellPages 3)));
    try reflexivity.
  vm_compute. discriminate.
Defined.
